(** * Incremental extraction engine of the Instagram and Square connectors

    A shallow embedding of the watermark store, the paginator, the rate
    governor, the record shaper and the Square request builders, followed
    by the properties the specification states about them.

    Python values are embedded as follows.  A [dict] with string keys is a
    [gmap string _]; a raised exception is the [Raise] outcome; a method
    that mutates [self] takes the old state and returns the new one; a
    call into a library (pendulum, json, facebook_business, the CDK) is a
    parameter of the section that embeds the caller. *)

From Stdlib Require Import ZArith String Ascii List Bool Lia.
From stdpp Require Import base option gmap strings list.

Set Warnings "-register-all".
Local Open Scope string_scope.
Local Open Scope Z_scope.
Local Open Scope list_scope.

(** ** Python values, exceptions and outcomes *)

Module Py.

(** The provider error of facebook_business: the fields the connectors
    read through [api_error_code], [api_error_subcode],
    [api_error_message] and [body]. *)
Record fb_error := FbError {
  api_error_code : option Z;
  api_error_subcode : option Z;
  api_error_message : string;
  body : string
}.

(** A Python [float]: the decimal [m * 10^e] it was read from, or one
    of the three special values.  Rounding to binary64 is not
    modelled. *)
Inductive pyfloat :=
| FNaN
| FInf (negative : bool)
| FDec (m e : Z).

(** JSON-like data: what [export_all_data], [json.loads] and the
    records handed downstream are made of. *)
Inductive value :=
| VNone
| VBool (b : bool)
| VInt (z : Z)
| VFloat (f : pyfloat)
| VStr (s : string)
| VList (l : list value)
| VDict (d : gmap string value).

Inductive exn :=
| KeyError (key : value)
| TypeError
| ValueError
| OverflowError
| IndexError
| AttributeError
| JSONDecodeError
| ParserError
| FacebookRequestError (e : fb_error)
| OtherError (name : string).

Inductive outcome (A : Type) :=
| Return (a : A)
| Raise (e : exn).
Arguments Return {A} a.
Arguments Raise {A} e.

Definition bind {A B} (m : outcome A) (k : A -> outcome B) : outcome B :=
  match m with
  | Return a => k a
  | Raise e => Raise e
  end.

(** [bool(v)] *)
Definition truthy (v : value) : bool :=
  match v with
  | VNone => false
  | VBool b => b
  | VInt z => negb (z =? 0)
  | VFloat (FDec m _) => negb (m =? 0)
  | VFloat _ => true
  | VStr s => negb (String.eqb s EmptyString)
  | VList l => match l with [] => false | _ => true end
  | VDict d => negb (Nat.eqb (size d) 0)
  end.

(** [d[k]] on a dict with string keys *)
Definition getitem {A} (d : gmap string A) (k : string) : outcome A :=
  match d !! k with
  | Some a => Return a
  | None => Raise (KeyError (VStr k))
  end.

(** [d.get(k)]: a missing key reads as [None] *)
Definition get (d : gmap string value) (k : string) : value :=
  default VNone (d !! k).

(** [v == s] for a string literal [s] *)
Definition eq_str (v : value) (s : string) : bool :=
  match v with
  | VStr t => String.eqb t s
  | _ => false
  end.

(** [max(a, b)] keeps [a] unless [b > a]. *)
Definition max_with {A} (gt : A -> A -> bool) (a b : A) : A :=
  if gt b a then b else a.

End Py.

Export Py.

#[global] Instance outcome_ret : MRet outcome := @Return.
#[global] Instance outcome_bind : MBind outcome := fun A B k m => Py.bind m k.

(** ** Instagram: the partition watermark store *)

Module Instagram.

(** A pendulum datetime is an instant on the time line; comparisons
    and [max] are those of the instants. *)
Abbreviation datetime := Z.

Inductive log_line :=
| Advancing (stream_name cursor_field : string) (partition : string)
            (old new : datetime).

(** [stream_name[:-3] if stream_name.endswith("API")] *)
Fixpoint strip_API (s : string) : string :=
  match s with
  | EmptyString => EmptyString
  | String c r =>
      if String.eqb r "API" then String c EmptyString else String c (strip_API r)
  end.

Definition stream_name (class_name : string) : string :=
  if String.eqb class_name "API" then EmptyString else strip_API class_name.

Section IncrementalStream.
(** [pendulum.parse] *)
Variable parse : value -> outcome datetime.
(** the abstract properties [state_pk] and [cursor_field], and
    [self.__class__.__name__] *)
Variables state_pk cursor_field class_name : string.

(** The key [record[cursor_field]] as an index of [self._state]:
    the state maps account ids, which are strings, to datetimes, so
    a hashable key of another type is missing from it and a list or
    a dict cannot be hashed. *)
Definition partition_key (k : value) : outcome string :=
  match k with
  | VStr a => Return a
  | VList _ | VDict _ => Raise TypeError
  | VNone | VBool _ | VInt _ | VFloat _ => Raise (KeyError k)
  end.

(** [state_filter]: the returned record ([None] when it is filtered
    out), the state afterwards and the lines logged. *)
Definition state_filter (st : gmap string datetime) (record : gmap string value)
  : outcome (option (gmap string value) * gmap string datetime * list log_line) :=
  d ← getitem record state_pk;
  cursor ← parse d;
  k ← getitem record cursor_field;
  a ← partition_key k;
  w ← getitem st a;
  if (w >=? cursor)%Z then Return (None, st, [])
  else
    Return (Some record,
            <[a := max_with Z.gtb cursor w]> st,
            [Advancing (stream_name class_name) cursor_field a w cursor]).
(** A run of records through the filter, as the loop of a [list]
    method hands them over one after the other: the records that
    pass and the state at the end. *)
Fixpoint filter_all (st : gmap string datetime) (records : list (gmap string value))
  : outcome (list (gmap string value) * gmap string datetime) :=
  match records with
  | [] => Return ([], st)
  | record :: rest =>
      '(r, st1, _) ← state_filter st record;
      '(passed, st2) ← filter_all st1 rest;
      Return (match r with Some x => x :: passed | None => passed end, st2)
  end.
End IncrementalStream.

End Instagram.

(** ** Square: incremental state and request parameters *)

Module Square.

(** [a > b] on [str] *)
Definition str_gt (a b : string) : bool := String.ltb b a.

Section IncrementalSquareGenericStream.
Variables cursor_field start_date : string.

(** [latest_record[cursor_field]] compared with a [str]: every other
    JSON type raises [TypeError] against a string. *)
Definition as_str (v : value) : outcome string :=
  match v with
  | VStr s => Return s
  | _ => Raise TypeError
  end.

Definition get_updated_state (current_stream_state : option (gmap string string))
    (latest_record : gmap string value) : outcome (gmap string string) :=
  match current_stream_state with
  | Some st =>
      match st !! cursor_field with
      | Some cur =>
          v ← getitem latest_record cursor_field;
          new ← as_str v;
          Return {[ cursor_field := max_with str_gt cur new ]}
      | None => Return {[ cursor_field := start_date ]}
      end
  | None => Return {[ cursor_field := start_date ]}
  end.
End IncrementalSquareGenericStream.

Section IncrementalSquareStream.
(** [SquareStream.items_per_page_limit] is 100 *)
Variable items_per_page_limit : Z.
(** What [super().request_params(...)] returns; the class inherits
    it from the CDK's [HttpStream]. *)
Variable super_request_params : option (gmap string value).

Definition cursor_field : string := "created_at".

(** [bool(next_page_token)]: [None] and the empty mapping are false. *)
Definition token_truthy (next_page_token : option (gmap string value)) : bool :=
  match next_page_token with
  | Some t => negb (Nat.eqb (size t) 0)
  | None => false
  end.

(** [params_payload if params_payload else {}] *)
Definition payload_or_empty (p : option (gmap string value)) : gmap string value :=
  match p with
  | Some d => if Nat.eqb (size d) 0 then ∅ else d
  | None => ∅
  end.

(** [IncrementalSquareStream.request_params]; [dict.update]
    returns [None]. *)
Definition request_params (stream_state : gmap string string)
    (next_page_token : option (gmap string value))
  : outcome (option (gmap string value)) :=
  let params_payload := payload_or_empty super_request_params in
  let params_payload :=
    match stream_state !! cursor_field with
    | Some begin => <["begin_time" := VStr begin]> params_payload
    | None => params_payload
    end in
  if token_truthy next_page_token then
    cursor ← getitem (default ∅ next_page_token) "cursor";
    let updated := <["cursor" := cursor]> params_payload in
    Return None
  else
    Return (Some (<["limit" := VInt items_per_page_limit]> params_payload)).
End IncrementalSquareStream.

End Square.

(** ** The retry policy *)

Module Retry.

(** Modelled from the spec: how a call through the retry policy ends.
    With the result of the operation, with a non-retryable error as it
    was raised, or, the attempts used up, with the last error wrapped as
    a fatal stream error. *)
Inductive result (A : Type) :=
| Succeeded (a : A)
| Propagated (e : exn)
| Exhausted (last : exn).
Arguments Succeeded {A} a.
Arguments Propagated {A} e.
Arguments Exhausted {A} last.

Section Policy.
Context {St A : Type}.
(** the classification of an error as retryable, by its type *)
Variable retryable : exn -> bool.
(** the wrapped operation: one invocation, from the state of the
    world before it to its outcome and the state after it *)
Variable op : St -> outcome A * St.

(** Modelled from the spec: the attempts of the retry policy.  One
    attempt, then up to [n] more while the failure is retryable;
    [calls] counts the invocations made so far. *)
Fixpoint attempts (n : nat) (s : St) (calls : nat) {struct n}
  : result A * St * nat :=
  match op s with
  | (Return a, s') => (Succeeded a, s', S calls)
  | (Raise e, s') =>
      if retryable e then
        match n with
        | O => (Exhausted e, s', S calls)
        | S n' => attempts n' s' (S calls)
        end
      else (Propagated e, s', S calls)
  end.

(** Modelled from the spec: [retry_pattern] of [common.py], which
    builds the decorator [backoff_policy], is not among the sources.
    The policy wraps a fallible operation; a failure classified as
    retryable is retried up to a fixed maximum attempt count, a
    non-retryable error propagates immediately without retrying, and
    after the last attempt the last error propagates wrapped as a fatal
    stream error.  The result is how the call ends, the state of the
    world and the number of invocations.  The delays between the
    attempts are not part of the result. *)
Definition retry_policy (max_tries : nat) (s : St) : result A * St * nat :=
  attempts (Nat.pred max_tries) s 0.

(** The operation fails [k] times in a row with a retryable error,
    taking the world from [s] to [s']. *)
Inductive fails_times : nat -> St -> St -> Prop :=
| fails_O s : fails_times O s s
| fails_S k s e s1 s' :
    op s = (Raise e, s1) -> retryable e = true ->
    fails_times k s1 s' -> fails_times (S k) s s'.
End Policy.

(** [except FacebookRequestError]: the match is on the type. *)
Definition is_FacebookRequestError (e : exn) : bool :=
  match e with
  | FacebookRequestError _ => true
  | _ => false
  end.

Definition default_max_tries : nat := 7.

(** [backoff_policy = retry_pattern(backoff.expo, FacebookRequestError,
    max_tries=7, factor=5)] *)
Definition backoff_policy {St A} (op : St -> outcome A * St) (s : St)
  : result A * St * nat :=
  retry_policy is_FacebookRequestError op default_max_tries s.

End Retry.

(** ** The paginator *)

Module Paginator.

Inductive event (Item : Type) :=
| Yield (x : Item)
| LoadNextPage.
Arguments Yield {Item} x.
Arguments LoadNextPage {Item}.

(** How the generator ends: it returns, or an exception leaves it. *)
Inductive ending :=
| StopIteration
| Raised (e : exn).

Section Pagination.
Context {Cursor Item : Type}.
(** [instance._queue] and [instance._finished_iteration] *)
Variable _queue : Cursor -> list Item.
Variable _finished_iteration : Cursor -> bool.
(** [self.get_instance_cursor(ig_user, method_name, params, fields)] *)
Variable get_instance_cursor : outcome Cursor.
(** [self.load_next_page(instance)]: the instance after the call *)
Variable load_next_page : Cursor -> outcome Cursor.

(** The [while next_page] loop; [fuel] bounds its iterations. *)
Fixpoint while_next_page (fuel : nat) (instance : Cursor) (next_page : bool)
  : option (list (event Item) * ending) :=
  if next_page then
    match fuel with
    | O => None
    | S fuel' =>
        match load_next_page instance with
        | Raise e => Some ([LoadNextPage], Raised e)
        | Return instance' =>
            '(tr, r) ← while_next_page fuel' instance'
                         (negb (_finished_iteration instance'));
            Some (LoadNextPage :: map Yield (_queue instance') ++ tr, r)
        end
    end
  else Some ([], StopIteration).

(** [pagination]: the trace of what the generator does when it is
    consumed to its end, in order. *)
Definition pagination (fuel : nat) : option (list (event Item) * ending) :=
  match get_instance_cursor with
  | Raise e => Some ([], Raised e)
  | Return instance =>
      '(tr, r) ← while_next_page fuel instance
                   (negb (_finished_iteration instance));
      Some (map Yield (_queue instance) ++ tr, r)
  end.
End Pagination.

(** The items a trace yields and the pages it requests. *)
Fixpoint yielded {Item} (tr : list (event Item)) : list Item :=
  match tr with
  | [] => []
  | Yield x :: tr' => x :: yielded tr'
  | LoadNextPage :: tr' => yielded tr'
  end.

Fixpoint loads {Item} (tr : list (event Item)) : nat :=
  match tr with
  | [] => O
  | Yield _ :: tr' => loads tr'
  | LoadNextPage :: tr' => S (loads tr')
  end.

End Paginator.

(** ** [json.loads]

    The decoder of the standard library, as the rate governor uses it:
    [loads] of a text is the value read, or [None] where the decoder
    raises [JSONDecodeError].  Texts are byte strings in UTF-8. *)

Module Json.

Definition code (c : ascii) : Z := Z.of_N (N_of_ascii c).
Definition chr (z : Z) : ascii := ascii_of_N (Z.to_N z).

Definition is_ws (c : ascii) : bool :=
  (code c =? 32) || (code c =? 9) || (code c =? 10) || (code c =? 13).

Fixpoint skip_ws (s : string) : string :=
  match s with
  | String c r => if is_ws c then skip_ws r else s
  | EmptyString => s
  end.

Definition digit (c : ascii) : option Z :=
  let n := code c in
  if (48 <=? n) && (n <=? 57) then Some (n - 48) else None.

Definition hex_digit (c : ascii) : option Z :=
  let n := code c in
  if (48 <=? n) && (n <=? 57) then Some (n - 48)
  else if (97 <=? n) && (n <=? 102) then Some (n - 87)
  else if (65 <=? n) && (n <=? 70) then Some (n - 55)
  else None.

(** [s] without the prefix [p], when it starts with it *)
Fixpoint strip_prefix (p s : string) : option string :=
  match p, s with
  | EmptyString, _ => Some s
  | String a p', String b s' => if Ascii.eqb a b then strip_prefix p' s' else None
  | String _ _, EmptyString => None
  end.

(** The longest run of digits at the head of [s]: its value from the
    accumulator [acc], how many there are, and the rest. *)
Fixpoint digits (s : string) (acc : Z) (n : Z) : Z * Z * string :=
  match s with
  | String c r =>
      match digit c with
      | Some d => digits r (10 * acc + d) (n + 1)
      | None => (acc, n, s)
      end
  | EmptyString => (acc, n, s)
  end.

(** A number: an optional minus sign, then a zero or a run of digits
    that does not start with a zero; then, each optional, a point
    with at least one digit and an exponent with at least one digit.
    With neither it is an [int], otherwise a [float]. *)
Definition scan_number (s : string) : option (value * string) :=
  let '(neg, s1) := match s with
                    | String c r => if code c =? 45 then (true, r) else (false, s)
                    | EmptyString => (false, s)
                    end in
  let int_part :=
    match s1 with
    | String c r =>
        match digit c with
        | Some 0 => Some (0, r)
        | Some d => let '(i, _, r') := digits r d 1 in Some (i, r')
        | None => None
        end
    | EmptyString => None
    end in
  '(i, s2) ← int_part;
  let '(frac, s3) :=
    match s2 with
    | String c r =>
        if code c =? 46 then
          let '(f, n, r') := digits r 0 0 in
          if 0 <? n then (Some (f, n), r') else (None, s2)
        else (None, s2)
    | EmptyString => (None, s2)
    end in
  let '(exp, s4) :=
    match s3 with
    | String c r =>
        if (code c =? 101) || (code c =? 69) then
          let '(eneg, r1) :=
            match r with
            | String c' r' =>
                if code c' =? 45 then (true, r')
                else if code c' =? 43 then (false, r')
                else (false, r)
            | EmptyString => (false, r)
            end in
          let '(x, n, r2) := digits r1 0 0 in
          if 0 <? n then (Some (if eneg then - x else x), r2) else (None, s3)
        else (None, s3)
    | EmptyString => (None, s3)
    end in
  let sign z := if neg : bool then - z else z in
  match frac, exp with
  | None, None => Some (VInt (sign i), s4)
  | _, _ =>
      let '(f, n) := default (0, 0) frac in
      let x := default 0 exp in
      Some (VFloat (FDec (sign (i * 10 ^ n + f)) (x - n)), s4)
  end.

(** Four hexadecimal digits *)
Definition hex4 (s : string) : option (Z * string) :=
  match s with
  | String a (String b (String c (String d r))) =>
      x ← hex_digit a; y ← hex_digit b; z ← hex_digit c; w ← hex_digit d;
      Some (((x * 16 + y) * 16 + z) * 16 + w, r)
  | _ => None
  end.

(** The UTF-8 bytes of a code point *)
Definition utf8 (u : Z) : string :=
  if u <? 128 then String (chr u) EmptyString
  else if u <? 2048 then
    String (chr (192 + u / 64)) (String (chr (128 + u mod 64)) EmptyString)
  else if u <? 65536 then
    String (chr (224 + u / 4096))
      (String (chr (128 + (u / 64) mod 64)) (String (chr (128 + u mod 64)) EmptyString))
  else
    String (chr (240 + u / 262144))
      (String (chr (128 + (u / 4096) mod 64))
         (String (chr (128 + (u / 64) mod 64)) (String (chr (128 + u mod 64)) EmptyString))).

(** What follows a backslash: the text it stands for and the rest *)
Definition scan_escape (s : string) : option (string * string) :=
  match s with
  | String e r =>
      let n := code e in
      if n =? 34 then Some (String (chr 34) EmptyString, r)
      else if n =? 92 then Some (String (chr 92) EmptyString, r)
      else if n =? 47 then Some (String (chr 47) EmptyString, r)
      else if n =? 98 then Some (String (chr 8) EmptyString, r)
      else if n =? 102 then Some (String (chr 12) EmptyString, r)
      else if n =? 110 then Some (String (chr 10) EmptyString, r)
      else if n =? 114 then Some (String (chr 13) EmptyString, r)
      else if n =? 116 then Some (String (chr 9) EmptyString, r)
      else if n =? 117 then
        '(u, r1) ← hex4 r;
        let pair :=
          if (55296 <=? u) && (u <=? 56319) then
            r2 ← strip_prefix "\u" r1;
            '(u2, r3) ← hex4 r2;
            if (56320 <=? u2) && (u2 <=? 57343)
            then Some (65536 + (u - 55296) * 1024 + (u2 - 56320), r3)
            else None
          else None in
        match pair with
        | Some (cp, r3) => Some (utf8 cp, r3)
        | None => Some (utf8 u, r1)
        end
      else None
  | EmptyString => None
  end.

(** The body of a string, after its opening quote *)
Fixpoint scan_string (fuel : nat) (s : string) : option (string * string) :=
  match fuel, s with
  | S fuel', String c r =>
      if code c =? 34 then Some (EmptyString, r)
      else if code c =? 92 then
        '(d, r1) ← scan_escape r;
        '(t, r2) ← scan_string fuel' r1;
        Some (d +:+ t, r2)
      else if code c <? 32 then None
      else
        '(t, r1) ← scan_string fuel' r;
        Some (String c t, r1)
  | _, _ => None
  end.

Section Containers.
(** the scanner for one value *)
Variable scan_once : string -> option (value * string).

(** The elements of an array, from the first one on *)
Fixpoint scan_elements (fuel : nat) (s : string) (acc : list value)
  : option (list value * string) :=
  match fuel with
  | O => None
  | S fuel' =>
      '(v, r) ← scan_once s;
      match skip_ws r with
      | String c r' =>
          if code c =? 93 then Some (rev (v :: acc), r')
          else if code c =? 44 then scan_elements fuel' (skip_ws r') (v :: acc)
          else None
      | EmptyString => None
      end
  end.

(** The members of an object, from the quote that opens the first
    key on; a key given twice keeps its last value. *)
Fixpoint scan_members (fuel : nat) (s : string) (acc : gmap string value)
  : option (gmap string value * string) :=
  match fuel with
  | O => None
  | S fuel' =>
      r0 ← strip_prefix (String (chr 34) EmptyString) s;
      '(k, r1) ← scan_string (String.length r0) r0;
      r2 ← strip_prefix ":" (skip_ws r1);
      '(v, r3) ← scan_once (skip_ws r2);
      match skip_ws r3 with
      | String c r' =>
          if code c =? 125 then Some (<[k := v]> acc, r')
          else if code c =? 44 then scan_members fuel' (skip_ws r') (<[k := v]> acc)
          else None
      | EmptyString => None
      end
  end.
End Containers.

Fixpoint scan_value (fuel : nat) (s : string) : option (value * string) :=
  match fuel with
  | O => None
  | S fuel' =>
      match s with
      | EmptyString => None
      | String c r =>
          let n := code c in
          if n =? 34 then
            '(t, r') ← scan_string (String.length r) r; Some (VStr t, r')
          else if n =? 123 then
            match skip_ws r with
            | String c' r' =>
                if code c' =? 125 then Some (VDict ∅, r')
                else
                  '(d, r1) ← scan_members (scan_value fuel') (String.length r)
                               (skip_ws r) ∅;
                  Some (VDict d, r1)
            | EmptyString => None
            end
          else if n =? 91 then
            match skip_ws r with
            | String c' r' =>
                if code c' =? 93 then Some (VList [], r')
                else
                  '(l, r1) ← scan_elements (scan_value fuel') (String.length r)
                               (skip_ws r) [];
                  Some (VList l, r1)
            | EmptyString => None
            end
          else
            match strip_prefix "null" s, strip_prefix "true" s, strip_prefix "false" s with
            | Some r', _, _ => Some (VNone, r')
            | _, Some r', _ => Some (VBool true, r')
            | _, _, Some r' => Some (VBool false, r')
            | None, None, None =>
                match scan_number s with
                | Some res => Some res
                | None =>
                    match strip_prefix "NaN" s, strip_prefix "Infinity" s,
                          strip_prefix "-Infinity" s with
                    | Some r', _, _ => Some (VFloat FNaN, r')
                    | _, Some r', _ => Some (VFloat (FInf false), r')
                    | _, _, Some r' => Some (VFloat (FInf true), r')
                    | None, None, None => None
                    end
                end
            end
      end
  end.

Definition loads (s : string) : option value :=
  '(v, r) ← scan_value (S (String.length s)) (skip_ws s);
  match skip_ws r with
  | EmptyString => Some v
  | String _ _ => None
  end.

(** [json.loads] as the connectors call it *)
Definition json_loads (s : string) : outcome value :=
  match loads s with
  | Some v => Return v
  | None => Raise JSONDecodeError
  end.

End Json.

(** ** The rate governor *)

Module RateGovernor.

(** A [pendulum.duration]: the number of minutes [m * 10^e] it was
    built from.  [pendulum.duration()] is zero minutes. *)
Inductive duration :=
| Minutes (m e : Z).

Definition duration_zero : duration := Minutes 0 0.

(** [pendulum.duration(minutes=v)] *)
Definition duration_of_minutes (v : value) : outcome duration :=
  match v with
  | VBool b => Return (Minutes (Z.b2z b) 0)
  | VInt z => Return (Minutes z 0)
  | VFloat (FDec m e) => Return (Minutes m e)
  | VFloat FNaN => Raise ValueError
  | VFloat (FInf _) => Raise OverflowError
  | VNone | VStr _ | VList _ | VDict _ => Raise TypeError
  end.

(** [bool(pause_interval)] *)
Definition duration_truthy (d : duration) : bool :=
  let 'Minutes m _ := d in negb (m =? 0).

(** [pause_interval.total_seconds()], as the decimal [m * 10^e] *)
Definition total_seconds (d : duration) : Z * Z :=
  let 'Minutes m e := d in (m * 60, e).

(** [m * 10^e > t] *)
Definition dec_gt (m e t : Z) : bool :=
  if 0 <=? e then m * 10 ^ e >? t else m >? t * 10 ^ (- e).

(** [v > t] for an [int] [t] *)
Definition gt_int (v : value) (t : Z) : outcome bool :=
  match v with
  | VBool b => Return (Z.b2z b >? t)
  | VInt z => Return (z >? t)
  | VFloat FNaN => Return false
  | VFloat (FInf negative) => Return (negb negative)
  | VFloat (FDec m e) => Return (dec_gt m e t)
  | VNone | VStr _ | VList _ | VDict _ => Raise TypeError
  end.

Inductive effect :=
| Warn (call_count : value) (pause_interval : duration)
| Sleep (seconds : Z * Z).

Definition call_rate_threshold : Z := 90.

(** [headers.get(k)] is [None] or a string; both [None] and the empty
    string are false. *)
Definition header_truthy (h : option string) : bool :=
  match h with
  | Some s => negb (String.eqb s EmptyString)
  | None => false
  end.

(** [a or b] *)
Definition or_header (a b : option string) : option string :=
  if header_truthy a then a else b.

(** [headers.get("x-business-use-case-usage") or
    headers.get("x-app-usage") or headers.get("x-ad-account-usage")] *)
Definition find_usage_header (headers : gmap string string) : option string :=
  or_header (or_header (headers !! "x-business-use-case-usage")
                       (headers !! "x-app-usage"))
            (headers !! "x-ad-account-usage").

Section Api.
(** [json.loads] *)
Variable json_loads : string -> outcome value.

(** [usage_header.get(k, d)]: only a dict has [get]. *)
Definition usage_get (usage_header : value) (k : string) (d : value) : outcome value :=
  match usage_header with
  | VDict u => Return (default d (u !! k))
  | _ => Raise AttributeError
  end.

Definition parse_call_rate_header (headers : gmap string string)
  : outcome (value * duration) :=
  let usage_header := find_usage_header headers in
  match usage_header with
  | Some text =>
      if header_truthy usage_header then
        usage ← json_loads text;
        c1 ← usage_get usage "call_count" VNone;
        call_count ← (if truthy c1 then Return c1
                      else c2 ← usage_get usage "acc_id_util_pct" VNone;
                           Return (if truthy c2 then c2 else VInt 0));
        m ← usage_get usage "estimated_time_to_regain_access" (VInt 0);
        pause_interval ← duration_of_minutes m;
        Return (call_count, pause_interval)
      else Return (VInt 0, duration_zero)
  | None => Return (VInt 0, duration_zero)
  end.

(** [time.sleep] refuses a negative length. *)
Definition sleep (seconds : Z * Z) : outcome (list effect) :=
  if fst seconds <? 0 then Raise ValueError else Return [Sleep seconds].

(** [handle_call_rate_limit], on the headers of the response: what
    it logs and how long it sleeps. *)
Definition handle_call_rate_limit (headers : gmap string string)
  : outcome (list effect) :=
  '(call_count, pause_interval) ← parse_call_rate_header headers;
  over ← gt_int call_count call_rate_threshold;
  if over || duration_truthy pause_interval then
    slept ← sleep (total_seconds pause_interval);
    Return (Warn call_count pause_interval :: slept)
  else Return [].

(** The body of [call]: the parent's call, then the governor. *)
Definition call {Response} (headers : Response -> gmap string string)
    (super_call : outcome Response) : outcome (Response * list effect) :=
  response ← super_call;
  effects ← handle_call_rate_limit (headers response);
  Return (response, effects).
End Api.

End RateGovernor.

(** ** The record shaper *)

Module Shaper.

(** *** URL sanitization *)

(** [s.split(sep)] for a separator of one character *)
Fixpoint split (sep : ascii) (s : string) : list string :=
  match s with
  | EmptyString => [EmptyString]
  | String c r =>
      if Ascii.eqb c sep then EmptyString :: split sep r
      else match split sep r with
           | h :: t => String c h :: t
           | [] => [String c EmptyString]
           end
  end.

(** [sep.join(l)] *)
Fixpoint join (sep : string) (l : list string) : string :=
  match l with
  | [] => EmptyString
  | [x] => x
  | x :: r => x +:+ sep +:+ join sep r
  end.

(** [s.split(sep, 1)]: the text before the first [sep] and, when
    there is one, the text after it. *)
Fixpoint split_first (sep : ascii) (s : string) : string * option string :=
  match s with
  | EmptyString => (EmptyString, None)
  | String c r =>
      if Ascii.eqb c sep then (EmptyString, Some r)
      else let '(h, t) := split_first sep r in (String c h, t)
  end.

(** The result of [urlparse].  Scheme, network location, path and
    parameters stay together in [prefix]: the connector replaces the
    query only and [urlunparse] puts the four back in front of it. *)
Record ParseResult := {
  prefix : string;
  query : string;
  fragment : string
}.

(** The fragment starts after the first [#], the query after the
    first [?] before it. *)
Definition urlparse (url : string) : ParseResult :=
  let '(rest, frag) := split_first "#" url in
  let '(pre, q) := split_first "?" rest in
  {| prefix := pre; query := default EmptyString q;
     fragment := default EmptyString frag |}.

(** An empty query or fragment is left out with its delimiter. *)
Definition urlunparse (p : ParseResult) : string :=
  prefix p
  +:+ (if String.eqb (query p) EmptyString then EmptyString else "?" +:+ query p)
  +:+ (if String.eqb (fragment p) EmptyString then EmptyString
       else "#" +:+ fragment p).

Definition volatile_params : list string := ["_nc_rid"; "ccb"].

(** [key not in ["_nc_rid", "ccb"]] *)
Definition not_volatile (key : string) : bool :=
  negb (existsb (String.eqb key) volatile_params).

(** The loop over [parsed_url.query.split("&")]: [key, value =
    q.split("=")] needs exactly two parts. *)
Fixpoint filter_query (qs : list string) : outcome (list string) :=
  match qs with
  | [] => Return []
  | q :: rest =>
      match split "=" q with
      | [key; value] =>
          res ← filter_query rest;
          Return (if not_volatile key then (key +:+ "=" +:+ value) :: res else res)
      | _ => Raise ValueError
      end
  end.

Definition clear_query_params (url : string) : outcome string :=
  let parsed_url := urlparse url in
  res_query ← filter_query (split "&" (query parsed_url));
  Return (urlunparse {| prefix := prefix parsed_url;
                        query := join "&" res_query;
                        fragment := fragment parsed_url |}).

(** [urlparse] of something that is not text *)
Definition url_of (v : value) : outcome string :=
  match v with
  | VStr s => Return s
  | _ => Raise AttributeError
  end.

(** [clear_url] of [client/api.py].  The method [_clear_url] of
    [streams.py] has the same two branches and hands the URL to
    [remove_params_from_url], which is not among the sources. *)
Definition clear_url (record_data : gmap string value) : outcome (gmap string value) :=
  if eq_str (get record_data "media_type") "VIDEO" && truthy (get record_data "media_url")
  then
    url ← url_of (get record_data "media_url");
    cleared ← clear_query_params url;
    Return (<["media_url" := VStr cleared]> record_data)
  else if truthy (get record_data "profile_picture_url") then
    url ← url_of (get record_data "profile_picture_url");
    cleared ← clear_query_params url;
    Return (<["profile_picture_url" := VStr cleared]> record_data)
  else Return record_data.

(** *** Insight flattening *)

(** One entry of an insights response: the metric's name, its period
    and its list of data points. *)
Record insight := {
  name : string;
  period : value;
  values : list (gmap string value)
}.

Definition qualifying_periods : list string := ["week"; "days_28"].

(** [f"{name}_{period}" if period in ["week", "days_28"] else name] *)
Definition insight_key (i : insight) : string :=
  match period i with
  | VStr p =>
      if existsb (String.eqb p) qualifying_periods
      then name i +:+ "_" +:+ p
      else name i
  | _ => name i
  end.

(** [insight.get("values")[0]] *)
Definition first_value (i : insight) : outcome (gmap string value) :=
  match values i with
  | v :: _ => Return v
  | [] => Raise IndexError
  end.

(** The body of the loop over [insight_list] *)
Definition add_insight (insight_record : gmap string value) (i : insight)
  : outcome (gmap string value) :=
  point ← first_value i;
  v ← getitem point "value";
  let insight_record := <[insight_key i := v]> insight_record in
  if negb (truthy (get insight_record "date")) then
    end_time ← getitem point "end_time";
    Return (<["date" := end_time]> insight_record)
  else Return insight_record.

Fixpoint add_insights (insight_record : gmap string value) (insight_list : list insight)
  : outcome (gmap string value) :=
  match insight_list with
  | [] => Return insight_record
  | i :: rest =>
      insight_record ← add_insight insight_record i;
      add_insights insight_record rest
  end.

(** The merged record of one day of [UserInsights.list] *)
Definition insight_record (page_id account_id : value) (insight_list : list insight)
  : outcome (gmap string value) :=
  add_insights (<["business_account_id" := account_id]> {["page_id" := page_id]})
               insight_list.

(** One day of [UserInsights.list], after the insights of the day
    were fetched: nothing for an empty list, else the merged record
    through the state filter. *)
Definition UserInsights_day (parse : value -> outcome Instagram.datetime)
    (st : gmap string Instagram.datetime) (page_id account_id : value)
    (insight_list : list insight)
  : outcome (option (gmap string value) * gmap string Instagram.datetime
             * list Instagram.log_line) :=
  match insight_list with
  | [] => Return (None, st, [])
  | _ =>
      merged ← insight_record page_id account_id insight_list;
      Instagram.state_filter parse "date" "business_account_id" "UserInsights" st merged
  end.

(** *** Metric sets and insight errors *)

Definition MEDIA_METRICS : list string :=
  ["engagement"; "impressions"; "reach"; "saved"].
Definition CAROUSEL_ALBUM_METRICS : list string :=
  ["carousel_album_engagement"; "carousel_album_impressions";
   "carousel_album_reach"; "carousel_album_saved"].
Definition STORY_METRICS : list string :=
  ["exits"; "impressions"; "reach"; "replies"; "taps_forward"; "taps_back"].

Inductive log_line :=
| MediaInsightsError (account_id : value) (body : string)
| StoryInsightsError (message : string).

Section Insights.
Context {Insights : Type}.
(** [item.get_insights(params={"metric": metrics})] *)
Variable get_insights : gmap string value -> list string -> outcome Insights.

(** The metrics [MediaInsights._get_insights] asks for *)
Definition media_metrics (item : gmap string value) : list string :=
  if eq_str (get item "media_type") "VIDEO" then MEDIA_METRICS ++ ["video_views"]
  else if eq_str (get item "media_type") "CAROUSEL_ALBUM" then CAROUSEL_ALBUM_METRICS
  else MEDIA_METRICS.

(** The body of [MediaInsights._get_insights]: its outcome and what
    it logs. *)
Definition MediaInsights_get_insights (item : gmap string value) (account_id : value)
  : outcome (option Insights) * list log_line :=
  let metrics := media_metrics item in
  match get_insights item metrics with
  | Return insights => (Return (Some insights), [])
  | Raise (FacebookRequestError error) =>
      if bool_decide (api_error_subcode error = Some 2108006)
      then (Return None, [MediaInsightsError account_id (body error)])
      else (Raise (FacebookRequestError error), [])
  | Raise e => (Raise e, [])
  end.

(** The body of [StoriesInsights._get_insights]; [empty] is the
    empty list it returns for error code 10. *)
Definition StoriesInsights_get_insights (empty : Insights) (item : gmap string value)
  : outcome Insights * list log_line :=
  match get_insights item STORY_METRICS with
  | Return insights => (Return insights, [])
  | Raise (FacebookRequestError error) =>
      (if bool_decide (api_error_code error = Some 10)
       then Return empty
       else Raise (FacebookRequestError error),
       [StoryInsightsError (api_error_message error)])
  | Raise e => (Raise e, [])
  end.
End Insights.

End Shaper.

(** ** Square: the streams of the connector *)

Module SquareStreams.

(** [SquareStream.next_page_token]; [response_json] is what
    [response.json()] gives. *)
Definition next_page_token (response_json : outcome value)
  : outcome (option (gmap string value)) :=
  body ← response_json;
  match body with
  | VDict d =>
      let next_page_cursor := default (VBool false) (d !! "cursor") in
      Return (if truthy next_page_cursor
              then Some {[ "cursor" := next_page_cursor ]} else None)
  | _ => Raise AttributeError
  end.

(** [payload.update({"cursor": kwargs["next_page_token"]["cursor"]})]
    under [if "next_page_token" in kwargs and kwargs["next_page_token"]] *)
Definition update_cursor (payload : gmap string value)
    (next_page_token : option (gmap string value)) : outcome (gmap string value) :=
  if Square.token_truthy next_page_token then
    cursor ← getitem (default ∅ next_page_token) "cursor";
    Return (<["cursor" := cursor]> payload)
  else Return payload.

Section Requests.
(** What the method of the parent class returns: for a stream that
    derives from [SquareStream] directly it is the CDK's default. *)
Variable super_result : option (gmap string value).

(** [TeamMemberWages.request_params]; its page limit is 200. *)
Definition TeamMemberWages_request_params
    (next_page_token : option (gmap string value)) : outcome (gmap string value) :=
  let params_payload := Square.payload_or_empty super_result in
  params_payload ← update_cursor params_payload next_page_token;
  Return (<["limit" := VInt 200]> params_payload).

(** [Customers.request_params] *)
Definition Customers_request_params
    (next_page_token : option (gmap string value)) : outcome (gmap string value) :=
  let params_payload := Square.payload_or_empty super_result in
  params_payload ← update_cursor params_payload next_page_token;
  Return (<["sort_field" := VStr "CREATED_AT"]>
            (<["sort_order" := VStr "ASC"]> params_payload)).

(** [Shifts.request_body_json] *)
Definition Shifts_request_body_json
    (next_page_token : option (gmap string value)) : outcome (gmap string value) :=
  let json_payload := Square.payload_or_empty super_result in
  update_cursor json_payload next_page_token.

(** [TeamMembers.request_body_json]; its page limit is the base's 100. *)
Definition TeamMembers_request_body_json
    (next_page_token : option (gmap string value)) : outcome (gmap string value) :=
  let json_payload := Square.payload_or_empty super_result in
  json_payload ← update_cursor json_payload next_page_token;
  Return (<["limit" := VInt 100]> json_payload).

(** [SquareCatalogObjectsStream.request_body_json]: [self.path()] is
    ["catalog/search"] for the class and for all that derive from it, and
    the page limit is 1000.  The guard is [if next_page_token:]. *)
Definition Catalog_request_body_json (include_deleted_objects : bool)
    (next_page_token : option (gmap string value)) : outcome (gmap string value) :=
  let json_payload := Square.payload_or_empty super_result in
  let json_payload :=
    <["limit" := VInt 1000]>
      (<["include_related_objects" := VBool false]>
         (<["include_deleted_objects" := VBool include_deleted_objects]> json_payload)) in
  update_cursor json_payload next_page_token.

(** [IncrementalSquareCatalogObjectsStream.request_body_json]; the
    cursor field of the class is ["updated_at"]. *)
Definition IncrementalCatalog_request_body_json (include_deleted_objects : bool)
    (stream_state : gmap string string)
    (next_page_token : option (gmap string value)) : outcome (gmap string value) :=
  json_payload ← Catalog_request_body_json include_deleted_objects next_page_token;
  Return (match stream_state !! "updated_at" with
          | Some begin => <["begin_time" := VStr begin]> json_payload
          | None => json_payload
          end).

(** [Items.request_body_json], and with another [object_type] that of
    [Categories], [Discounts], [Taxes] and [ModifierList]: the body of
    the parent with ["object_types": [object_type]] put on top. *)
Definition typed_request_body_json (object_type : string)
    (include_deleted_objects : bool) (stream_state : gmap string string)
    (next_page_token : option (gmap string value)) : outcome (gmap string value) :=
  json_payload ← IncrementalCatalog_request_body_json include_deleted_objects
                   stream_state next_page_token;
  Return (<["object_types" := VList [VStr object_type]]> json_payload).

(** [Refunds.request_params] and [Payments.request_params]: the parent
    is [IncrementalSquareStream], with the base's page limit of 100. *)
Definition Payments_request_params (stream_state : gmap string string)
    (next_page_token : option (gmap string value)) : outcome (gmap string value) :=
  params_payload ← Square.request_params 100 super_result stream_state next_page_token;
  match params_payload with
  | Some d =>
      if Nat.eqb (size d) 0 then Return {[ "sort_order" := VStr "ASC" ]}
      else Return (<["sort_order" := VStr "ASC"]> d)
  | None => Return {[ "sort_order" := VStr "ASC" ]}
  end.

(** The loop [location_ids.append(location_item["id"])] *)
Fixpoint collect_location_ids (records : list (gmap string value)) : outcome (list value) :=
  match records with
  | [] => Return []
  | location_item :: rest =>
      location_id ← getitem location_item "id";
      location_ids ← collect_location_ids rest;
      Return (location_id :: location_ids)
  end.

(** [Orders.request_body_json]; [locations] is what reading the
    [Locations] stream to its end gives.  The page limit is 500. *)
Definition Orders_request_body_json (locations : outcome (list (gmap string value)))
    (next_page_token : option (gmap string value)) : outcome (gmap string value) :=
  let json_payload := Square.payload_or_empty super_result in
  records ← locations;
  location_ids ← collect_location_ids records;
  let json_payload :=
    match location_ids with
    | [] => json_payload
    | _ => <["location_ids" := VList location_ids]> json_payload
    end in
  json_payload ← update_cursor json_payload next_page_token;
  Return (<["limit" := VInt 500]> json_payload).
End Requests.

(** *** [_send_request] *)

(** How the parent's [_send_request] ends: with the response, with
    [requests.exceptions.HTTPError] whose response has the given
    content, or with another exception. *)
Inductive parent_sent (Response : Type) :=
| Sent (response : Response)
| HTTPError (content : string)
| Failed (e : exn).
Arguments Sent {Response} response.
Arguments HTTPError {Response} content.
Arguments Failed {Response} e.

(** How [SquareStream._send_request] ends: it returns the response or
    [None], or it raises [SquareException] with the errors of the body,
    the [HTTPError] it caught, or another exception. *)
Inductive sent (Response : Type) :=
| Returned (response : option Response)
| SquareException (errors : value)
| SameHTTPError (content : string)
| Raised (e : exn).
Arguments Returned {Response} response.
Arguments SquareException {Response} errors.
Arguments SameHTTPError {Response} content.
Arguments Raised {Response} e.

(** [sub in s] on [str] *)
Fixpoint str_contains (sub s : string) : bool :=
  if String.prefix sub s then true
  else match s with
       | EmptyString => false
       | String _ r => str_contains sub r
       end.

(** ["errors" in content] *)
Definition has_errors (content : value) : outcome bool :=
  match content with
  | VDict d => Return (bool_decide (is_Some (d !! "errors")))
  | VList l => Return (existsb (fun v => eq_str v "errors") l)
  | VStr s => Return (str_contains "errors" s)
  | VNone | VBool _ | VInt _ | VFloat _ => Raise TypeError
  end.

(** [content["errors"]] *)
Definition errors_of (content : value) : outcome value :=
  match content with
  | VDict d => getitem d "errors"
  | _ => Raise TypeError
  end.

Section SendRequest.
Context {Response : Type}.
(** [json.loads] *)
Variable json_loads : string -> outcome value.

Definition _send_request (parent : parent_sent Response) : sent Response :=
  match parent with
  | Sent response => Returned (Some response)
  | Failed e => Raised e
  | HTTPError body =>
      if negb (String.eqb body EmptyString) then
        match json_loads body with
        | Raise e => Raised e
        | Return content =>
            if truthy content then
              match has_errors content with
              | Raise e => Raised e
              | Return true =>
                  match errors_of content with
                  | Return errors => SquareException errors
                  | Raise e => Raised e
                  end
              | Return false => Returned None
              end
            else Returned None
        end
      else SameHTTPError body
  end.
End SendRequest.

(** *** [SourceSquare.check_connection] *)

Definition api_version : string := "2021-06-16".

(** The headers of the check; [Authorization] is the text
    ["Bearer {}".format(config["api_key"])], kept as the key it
    formats. *)
Record check_headers := {
  Square_Version : string;
  Authorization : value;
  Content_Type : string
}.

(** How [requests.get(url, headers=headers)] followed by
    [session.raise_for_status()] ends: without an exception, with a
    [requests.exceptions.RequestException] whose [response] is [None] or
    has the given status code, or with another exception. *)
Inductive checked :=
| Passed
| RequestException (response : option Z)
| OtherException (e : exn).

(** The second component of what [check_connection] returns *)
Inductive reason :=
| NoReason
| Text (message : string)
| CaughtException (response : option Z).

Definition check_url (is_sandbox : value) : string :=
  "https://connect.squareup" +:+ (if truthy is_sandbox then "sandbox" else EmptyString)
    +:+ ".com/v2/catalog/info".

Definition check_connection (requests_get : string -> check_headers -> checked)
    (config : gmap string value) : outcome (bool * reason) :=
  api_key ← getitem config "api_key";
  let headers := {| Square_Version := api_version; Authorization := api_key;
                    Content_Type := "application/json" |} in
  is_sandbox ← getitem config "is_sandbox";
  let url := check_url is_sandbox in
  match requests_get url headers with
  | Passed => Return (true, NoReason)
  | RequestException (Some status_code) =>
      if status_code =? 401 then Return (false, Text "Unauthorized. Check your credentials")
      else Return (false, CaughtException (Some status_code))
  | RequestException None => Raise AttributeError
  | OtherException e => Raise e
  end.

End SquareStreams.

(** ** Instagram: finding the business accounts *)

Module InstagramApi.

(** An entry of [InstagramAPI.accounts]: the id of the page and the id
    the [IGUser] of its business account is built from. *)
Record account := {
  page_id : string;
  instagram_business_account : value
}.

(** The two messages of [InstagramAPIException] *)
Inductive message :=
| ProviderError (code : option Z) (text : string)
| NoBusinessAccount.

(** How [_find_accounts] ends *)
Inductive found :=
| Accounts (l : list account)
| InstagramAPIException (m : message)
| Raised (e : exn).

Section FindAccounts.
(** The ids of the accounts [User(fbid="me").get_accounts()] yields *)
Variable get_accounts : outcome (list string).
(** [Page(id).api_get(fields=["instagram_business_account"])] *)
Variable api_get : string -> outcome (gmap string value).

(** [page.get("instagram_business_account").get("id")] on a value
    that is true *)
Definition business_account_id (v : value) : outcome value :=
  match v with
  | VDict d => Return (get d "id")
  | _ => Raise AttributeError
  end.

(** The loop over the accounts *)
Fixpoint collect (ids : list string) : outcome (list account) :=
  match ids with
  | [] => Return []
  | id :: rest =>
      page ← api_get id;
      if truthy (get page "instagram_business_account") then
        ig ← business_account_id (get page "instagram_business_account");
        found ← collect rest;
        Return ({| page_id := id; instagram_business_account := ig |} :: found)
      else collect rest
  end.

Definition _find_accounts : found :=
  match (ids ← get_accounts; collect ids) with
  | Raise (FacebookRequestError exc) =>
      InstagramAPIException
        (ProviderError (api_error_code exc) (api_error_message exc))
  | Raise e => Raised e
  | Return [] => InstagramAPIException NoBusinessAccount
  | Return instagram_business_accounts => Accounts instagram_business_accounts
  end.
End FindAccounts.

End InstagramApi.

(** ** Instagram: the streams over the accounts *)

Module InstagramStreams.

(** *** [UserInsights]: the days to ask for *)

(** The parameters of one insights request of [UserInsights._params] *)
Record day_params := {
  metric : list string;
  period : list string;
  since : string;
  until : string
}.

(** [METRICS_BY_PERIOD], in the order of its items *)
Definition METRICS_BY_PERIOD : list (string * list string) :=
  [("day", ["email_contacts"; "follower_count"; "get_directions_clicks";
            "impressions"; "phone_call_clicks"; "profile_views"; "reach";
            "text_message_clicks"; "website_clicks"]);
   ("week", ["impressions"; "reach"]);
   ("days_28", ["impressions"; "reach"]);
   ("lifetime", ["online_followers"])].

Definition buffer_days : Z := 29.
Definition days_increment : Z := 1.

Section UserInsights.
(** The length of a day, in the unit the instants are counted in:
    [d.add(days=n)] is [d + n * day]. *)
Variable day : Z.
(** [to_datetime_string] *)
Variable to_datetime_string : Z -> string.

(** [_set_state]: [now] is [pendulum.now()] and [start_date] the
    [_start_date] of the API object.  A datetime is always true, so a
    stored state is taken whenever there is one. *)
Definition _set_state (now start_date : Z) (st : gmap string Z) (account_id : string)
  : gmap string Z :=
  let start_date := default start_date (st !! account_id) in
  <[account_id := max_with Z.gtb start_date (now - buffer_days * day)]> st.

(** The requests of the day that starts at [buffered_start_date] *)
Definition params_list (buffered_start_date : Z) : list day_params :=
  map (fun '(p, metrics) =>
         {| metric := metrics; period := [p];
            since := to_datetime_string buffered_start_date;
            until := to_datetime_string (buffered_start_date + days_increment * day) |})
      METRICS_BY_PERIOD.

(** The loop of [_params]; [fuel] bounds its iterations. *)
Fixpoint params_from (fuel : nat) (end_date buffered_start_date : Z)
  : option (list (list day_params)) :=
  if buffered_start_date <=? end_date then
    match fuel with
    | O => None
    | S fuel' =>
        rest ← params_from fuel' end_date (buffered_start_date + days_increment * day);
        Some (params_list buffered_start_date :: rest)
    end
  else Some [].

(** [_params]: the lists it yields, one for each day *)
Definition _params (fuel : nat) (end_date : Z) (st : gmap string Z) (account_id : string)
  : option (outcome (list (list day_params))) :=
  match st !! account_id with
  | Some buffered_start_date =>
      windows ← params_from fuel end_date buffered_start_date;
      Some (Return windows)
  | None => Some (Raise (KeyError (VStr account_id)))
  end.

(** *** [UserInsights.list] for one account *)

(** [pendulum.parse] *)
Variable parse : value -> outcome Z.
(** [self._get_insight_records(account["instagram_business_account"],
    params=params)] for the account at hand *)
Variable _get_insight_records : day_params -> outcome (list Shaper.insight).

(** [insight_list += ...] over the requests of one day *)
Fixpoint insights_of_day (params_per_day : list day_params)
  : outcome (list Shaper.insight) :=
  match params_per_day with
  | [] => Return []
  | params :: rest =>
      insights ← _get_insight_records params;
      more ← insights_of_day rest;
      Return (insights ++ more)
  end.

(** The loop over the days: the records it yields, the state it leaves
    and how it ends. *)
Fixpoint list_days (page_id : value) (account_id : string) (st : gmap string Z)
    (days : list (list day_params))
  : list (gmap string value) * gmap string Z * Paginator.ending :=
  match days with
  | [] => ([], st, Paginator.StopIteration)
  | params_per_day :: rest =>
      match (insight_list ← insights_of_day params_per_day;
             Shaper.UserInsights_day parse st page_id (VStr account_id) insight_list) with
      | Raise e => ([], st, Paginator.Raised e)
      | Return (record, st', _) =>
          let '(records, st'', ending) := list_days page_id account_id st' rest in
          (match record with Some r => r :: records | None => records end,
           st'', ending)
      end
  end.

(** The body of the loop over the accounts, for one account *)
Definition list_account (fuel : nat) (now start_date end_date : Z)
    (page_id : value) (account_id : string) (st : gmap string Z)
  : option (list (gmap string value) * gmap string Z * Paginator.ending) :=
  let st := _set_state now start_date st account_id in
  days ← _params fuel end_date st account_id;
  match days with
  | Return days => Some (list_days page_id account_id st days)
  | Raise e => Some ([], st, Paginator.Raised e)
  end.
End UserInsights.

(** *** [MediaInsights.list] and [StoriesInsights.list] *)



Section ItemInsights.
(** [item.get_insights(params={"metric": metrics})] *)
Variable get_insights : gmap string value -> list string -> outcome (list Shaper.insight).



End ItemInsights.

(** *** [Stories.list] of [client/api.py] *)

(** The record of one story: [record_data.update] with the two fields
    of the account, then [clear_url] *)
Definition story_record (page_id account_id : value) (record_data : gmap string value)
  : outcome (gmap string value) :=
  Shaper.clear_url
    (<["business_account_id" := account_id]> (<["page_id" := page_id]> record_data)).

(** The loop over the stories of one account; [stories] holds what
    [export_all_data] gives for each story of the pagination. *)
Fixpoint Stories_list (page_id account_id : value) (stories : list (gmap string value))
  : list (gmap string value) * Paginator.ending :=
  match stories with
  | [] => ([], Paginator.StopIteration)
  | record_data :: rest =>
      match story_record page_id account_id record_data with
      | Raise e => ([], Paginator.Raised e)
      | Return record =>
          let '(records, ending) := Stories_list page_id account_id rest in
          (record :: records, ending)
      end
  end.

End InstagramStreams.

(** ** URL sanitization over the URL library

    [clear_url] of [client/api.py] once more, with [urlparse] and
    [urlunparse] of [urllib.parse] as parameters: what they do to a text
    (the case of the scheme, an invalid network location) is the
    library's and is not fixed here. *)

Module Sanitizer.

(** [urllib.parse.ParseResult]: the six components of a URL *)
Record ParseResult := {
  scheme : string;
  netloc : string;
  path : string;
  params : string;
  query : string;
  fragment : string
}.

(** [parsed_url._replace(query=q)] *)
Definition _replace_query (parsed_url : ParseResult) (q : string) : ParseResult :=
  {| scheme := scheme parsed_url; netloc := netloc parsed_url; path := path parsed_url;
     params := params parsed_url; query := q; fragment := fragment parsed_url |}.

Section Library.
(** [urlparse.urlparse(url)]: the components, or the exception the
    library raises for the text *)
Variable urlparse : string -> outcome ParseResult.
(** [urlparse.urlunparse(parse_result)] *)
Variable urlunparse : ParseResult -> string.

(** The nested function [clear_query_params] *)
Definition clear_query_params (url : string) : outcome string :=
  parsed_url ← urlparse url;
  res_query ← Shaper.filter_query (Shaper.split "&" (query parsed_url));
  let parse_result := _replace_query parsed_url (Shaper.join "&" res_query) in
  Return (urlunparse parse_result).

Definition clear_url (record_data : gmap string value) : outcome (gmap string value) :=
  if eq_str (get record_data "media_type") "VIDEO" && truthy (get record_data "media_url")
  then
    url ← Shaper.url_of (get record_data "media_url");
    cleared ← clear_query_params url;
    Return (<["media_url" := VStr cleared]> record_data)
  else if truthy (get record_data "profile_picture_url") then
    url ← Shaper.url_of (get record_data "profile_picture_url");
    cleared ← clear_query_params url;
    Return (<["profile_picture_url" := VStr cleared]> record_data)
  else Return record_data.

(** The record of one story in [Stories.list]: [record_data.update]
    with the two fields of the account, then [clear_url] *)
Definition story_record (page_id account_id : value) (record_data : gmap string value)
  : outcome (gmap string value) :=
  clear_url
    (<["business_account_id" := account_id]> (<["page_id" := page_id]> record_data)).

(** The loop of [Stories.list] over the stories of one account;
    [stories] holds what [export_all_data] gives for each story of the
    pagination. *)
Fixpoint Stories_list (page_id account_id : value) (stories : list (gmap string value))
  : list (gmap string value) * Paginator.ending :=
  match stories with
  | [] => ([], Paginator.StopIteration)
  | record_data :: rest =>
      match story_record page_id account_id record_data with
      | Raise e => ([], Paginator.Raised e)
      | Return record =>
          let '(records, ending) := Stories_list page_id account_id rest in
          (record :: records, ending)
      end
  end.
End Library.

End Sanitizer.

(** ** [UserInsights._params] over the calendar

    [_params] once more, with the calendar as a parameter: pendulum's
    [add(days=1)] moves to the same wall-clock time of the next day, which
    is not a fixed number of seconds later where the clock of the zone
    changes. *)

Module Calendar.

Section Calendar.
(** [d.add(days=self.days_increment)] *)
Variable add_day : Z -> Z.
(** [to_datetime_string] *)
Variable to_datetime_string : Z -> string.

(** The requests of the day that starts at [buffered_start_date] *)
Definition params_list (buffered_start_date : Z) : list InstagramStreams.day_params :=
  map (fun '(p, metrics) =>
         {| InstagramStreams.metric := metrics; InstagramStreams.period := [p];
            InstagramStreams.since := to_datetime_string buffered_start_date;
            InstagramStreams.until := to_datetime_string (add_day buffered_start_date) |})
      InstagramStreams.METRICS_BY_PERIOD.

(** The loop of [_params]; [fuel] bounds its iterations. *)
Fixpoint params_from (fuel : nat) (end_date buffered_start_date : Z)
  : option (list (list InstagramStreams.day_params)) :=
  if buffered_start_date <=? end_date then
    match fuel with
    | O => None
    | S fuel' =>
        rest ← params_from fuel' end_date (add_day buffered_start_date);
        Some (params_list buffered_start_date :: rest)
    end
  else Some [].

(** [_params]: the lists it yields, one for each day *)
Definition _params (fuel : nat) (end_date : Z) (st : gmap string Z) (account_id : string)
  : option (outcome (list (list InstagramStreams.day_params))) :=
  match st !! account_id with
  | Some buffered_start_date =>
      windows ← params_from fuel end_date buffered_start_date;
      Some (Return windows)
  | None => Some (Raise (KeyError (VStr account_id)))
  end.
End Calendar.

End Calendar.

(** ** The insight fetch behind its decorator

    [_get_insights] of [MediaInsights] and [StoriesInsights] is
    decorated with [@backoff_policy]: the caller gets the outcome of the
    retry policy around the body.  The requests go to a provider whose
    answers change from one request to the next, so they thread a state. *)

Module InsightFetch.

Section Decorated.
Context {St : Type}.
(** [item.get_insights(params={"metric": metrics})]: one request, from
    the state of the provider before it to its outcome and the state
    after it *)
Variable get_insights :
  gmap string value -> list string -> St -> outcome (list Shaper.insight) * St.

(** The world of a call: the state of the provider and the lines
    logged so far *)
Local Abbreviation world := (St * list Shaper.log_line)%type.

(** One invocation of the body of [MediaInsights._get_insights] *)
Definition media_attempt (item : gmap string value) (account_id : value) (w : world)
  : outcome (option (list Shaper.insight)) * world :=
  let metrics := Shaper.media_metrics item in
  match get_insights item metrics (fst w) with
  | (Return insights, s') => (Return (Some insights), (s', snd w))
  | (Raise (FacebookRequestError error), s') =>
      if bool_decide (api_error_subcode error = Some 2108006)
      then (Return None,
            (s', snd w ++ [Shaper.MediaInsightsError account_id (body error)]))
      else (Raise (FacebookRequestError error), (s', snd w))
  | (Raise e, s') => (Raise e, (s', snd w))
  end.

(** [MediaInsights._get_insights], decorated *)
Definition MediaInsights_get_insights (item : gmap string value) (account_id : value)
    (w : world) : Retry.result (option (list Shaper.insight)) * world * nat :=
  Retry.backoff_policy (media_attempt item account_id) w.

(** One invocation of the body of [StoriesInsights._get_insights] *)
Definition story_attempt (item : gmap string value) (w : world)
  : outcome (list Shaper.insight) * world :=
  match get_insights item Shaper.STORY_METRICS (fst w) with
  | (Return insights, s') => (Return insights, (s', snd w))
  | (Raise (FacebookRequestError error), s') =>
      let logged := snd w ++ [Shaper.StoryInsightsError (api_error_message error)] in
      if bool_decide (api_error_code error = Some 10)
      then (Return [], (s', logged))
      else (Raise (FacebookRequestError error), (s', logged))
  | (Raise e, s') => (Raise e, (s', snd w))
  end.

(** [StoriesInsights._get_insights], decorated *)
Definition StoriesInsights_get_insights (item : gmap string value) (w : world)
  : Retry.result (list Shaper.insight) * world * nat :=
  Retry.backoff_policy (story_attempt item) w.

(** How the stream of story insights ends: at the end of the stories,
    with an exception raised as it came, or with the last error of a
    used-up retry. *)
Inductive ending :=
| StopIteration
| Raised (e : exn)
| Fatal (last : exn).

End Decorated.

End InsightFetch.
(** ** Concrete collaborators

    Instances of the parameters above, for evaluating the embedding on
    concrete inputs. *)

Module Fixtures.

(** In place of [pendulum.parse]: a text of decimal digits is the
    instant it writes; any other text does not parse. *)
Definition parse_instant (v : value) : outcome Z :=
  match v with
  | VStr s =>
      match Json.digits s 0 0 with
      | (z, n, EmptyString) => if 0 <? n then Return z else Raise ParserError
      | _ => Raise ParserError
      end
  | _ => Raise TypeError
  end.

Definition one_account : gmap string Z := {[ "17841400" := 1609804800 ]}.

Definition day_record (date : string) : gmap string value :=
  <["date" := VStr date]> {[ "business_account_id" := VStr "17841400" ]}.

Definition quoted (s : string) : string :=
  String (Json.chr 34) s +:+ String (Json.chr 34) EmptyString.

(** A usage header as the provider sends it: 95 percent of the call
    budget used, access regained in 5 minutes. *)
Definition usage_text : string :=
  "{" +:+ quoted "call_count" +:+ ": 95, " +:+ quoted "total_cputime" +:+ ": 10, "
      +:+ quoted "estimated_time_to_regain_access" +:+ ": 5}".

(** Three entries of a user insights response for the same metric. *)
Definition point (v : Z) (end_time : string) : gmap string value :=
  <["value" := VInt v]> {[ "end_time" := VStr end_time ]}.
Definition reach_day : Shaper.insight :=
  {| Shaper.name := "reach"; Shaper.period := VStr "day";
     Shaper.values := [point 11 "2021-01-05T08:00:00+0000"] |}.
Definition reach_week : Shaper.insight :=
  {| Shaper.name := "reach"; Shaper.period := VStr "week";
     Shaper.values := [point 70 "2021-01-05T08:00:00+0000"] |}.
Definition reach_days_28 : Shaper.insight :=
  {| Shaper.name := "reach"; Shaper.period := VStr "days_28";
     Shaper.values := [point 250 "2021-01-05T08:00:00+0000"] |}.

Definition transient : exn :=
  FacebookRequestError
    {| api_error_code := Some 2; api_error_subcode := None;
       api_error_message := "Service temporarily unavailable";
       body := EmptyString |}.



(** An operation on a call counter that fails with a provider error
    while fewer than [k] calls were made and then returns the count. *)
Definition flaky (k : nat) (calls : nat) : outcome nat * nat :=
  if (calls <? k)%nat then (Raise transient, S calls) else (Return calls, S calls).


(** An operation that always fails with an error of another type. *)
Definition broken (calls : nat) : outcome nat * nat :=
  (Raise (OtherError "ConnectionError"), S calls).

(** A provider cursor over fixed pages: its state is the index of the
    page in its buffer, and it is complete on the last page. *)
Definition pages : list (list string) := [["a"; "b"]; ["c"]; []].
Definition page_queue (i : nat) : list string := nth i pages [].
Definition page_finished (i : nat) : bool := (2 <=? i)%nat.
Definition page_load (i : nat) : outcome nat := Return (S i).

End Fixtures.

(** ** Sample inputs *)

Module Samples.

(** The body of an error response of Square *)
Definition error_body : string :=
  "{" +:+ Fixtures.quoted "errors" +:+ ": [{" +:+ Fixtures.quoted "category" +:+ ": "
      +:+ Fixtures.quoted "AUTHENTICATION_ERROR" +:+ "}]}".

(** A body that is JSON and has no errors entry *)
Definition plain_body : string :=
  "{" +:+ Fixtures.quoted "message" +:+ ": " +:+ Fixtures.quoted "Bad Gateway" +:+ "}".

(** A usage header that reports the utilization of the ad account
    only *)
Definition account_usage_text : string :=
  "{" +:+ Fixtures.quoted "acc_id_util_pct" +:+ ": 97}".

Definition unavailable : fb_error :=
  {| api_error_code := Some 2; api_error_subcode := None;
     api_error_message := "Service temporarily unavailable";
     body := EmptyString |}.

Definition location (id : string) : gmap string value :=
  <["name" := VStr "Main"]> {[ "id" := VStr id ]}.

(** An instant as the text of its decimal digits *)
Fixpoint decimal_from (fuel : nat) (z : Z) (acc : string) : string :=
  let acc := String (Json.chr (48 + z mod 10)) acc in
  match fuel with
  | O => acc
  | S fuel' => if z <? 10 then acc else decimal_from fuel' (z / 10) acc
  end.
Definition decimal (z : Z) : string := decimal_from 20 z EmptyString.

(** A provider that reports the reach of each window, dated at the end
    of the window *)
Definition daily_reach (params : InstagramStreams.day_params)
  : outcome (list Shaper.insight) :=
  Return [{| Shaper.name := "reach";
             Shaper.period := VStr (hd "day" (InstagramStreams.period params));
             Shaper.values := [Fixtures.point 11 (InstagramStreams.until params)] |}].



Definition item (id : string) : gmap string value :=
  <["media_type" := VStr "IMAGE"]> {[ "id" := VStr id ]}.


Definition video_story (id url : string) : gmap string value :=
  <["media_url" := VStr url]> (<["media_type" := VStr "VIDEO"]> {[ "id" := VStr id ]}).

(** A host that cannot be reached: the request fails with an exception
    that has no response. *)
Definition unreachable (url : string) (headers : SquareStreams.check_headers)
  : SquareStreams.checked :=
  SquareStreams.RequestException None.

Definition sandbox_config : gmap string value :=
  <["is_sandbox" := VBool true]> {[ "api_key" := VStr "EAAAEOuLQ" ]}.


(** In place of the URL library, for URLs as the provider writes them:
    the text before the query is kept in one piece as the path. *)
Definition urlparse (url : string) : outcome Sanitizer.ParseResult :=
  let p := Shaper.urlparse url in
  Return {| Sanitizer.scheme := EmptyString; Sanitizer.netloc := EmptyString;
            Sanitizer.path := Shaper.prefix p; Sanitizer.params := EmptyString;
            Sanitizer.query := Shaper.query p;
            Sanitizer.fragment := Shaper.fragment p |}.

Definition urlunparse (p : Sanitizer.ParseResult) : string :=
  Shaper.urlunparse {| Shaper.prefix := Sanitizer.path p;
                       Shaper.query := Sanitizer.query p;
                       Shaper.fragment := Sanitizer.fragment p |}.

(** A calendar whose second day has 23 hours: the clock of the zone
    goes forward on it. *)
Definition add_day (d : Z) : Z := if d =? 86400 then d + 82800 else d + 86400.

End Samples.

(** ** Vocabulary of the properties *)

(** The order of [str]: by code points, from the left. *)
Definition str_le (a b : string) : Prop := String.leb a b = true.

(** An entry the merge can read: it has a first data point, with a
    value and an end time. *)
Definition readable (i : Shaper.insight) : Prop :=
  exists p rest, Shaper.values i = p :: rest
                 /\ is_Some (p !! "value") /\ is_Some (p !! "end_time").



(** [c] does not occur in [s] *)
Fixpoint lacks (c : ascii) (s : string) : bool :=
  match s with
  | EmptyString => true
  | String x r => negb (Ascii.eqb x c) && lacks c r
  end.

(** A query component that splits at [=] into a key and a value *)
Definition two_parts (q : string) : Prop :=
  exists key value, Shaper.split "=" q = [key; value].

(** The components the loop keeps: those whose key is not volatile *)
Definition keep (q : string) : bool :=
  match Shaper.split "=" q with
  | key :: _ => Shaper.not_volatile key
  | [] => false
  end.

(** The instants [cs] rise strictly, the first of them above [w]. *)
Fixpoint increasing_from (w : Z) (cs : list Z) : Prop :=
  match cs with
  | [] => True
  | c :: rest => w < c /\ increasing_from c rest
  end.

(** The page of the account [id] names a business account. *)
Definition has_business_account (api_get : string -> outcome (gmap string value))
    (id : string) : bool :=
  match api_get id with
  | Return page => truthy (get page "instagram_business_account")
  | Raise _ => false
  end.

(** A value that is no [float] *)
Definition no_float (v : value) : Prop := forall f, v <> VFloat f.

(** A pause of [m] whole minutes that [pendulum.duration] can hold and
    [time.sleep] can take on every platform: at most 60000 minutes either
    way, well inside the 999999999 days of a [timedelta] and the longest
    sleep. *)
Definition pause_in_range (m : Z) : Prop := - 60000 <= m <= 60000.

(** The test of the first branch of [clear_url]: a video that has a
    media URL *)
Definition video_with_url (record_data : gmap string value) : bool :=
  eq_str (get record_data "media_type") "VIDEO" && truthy (get record_data "media_url").

(** The passes of a loop over the days from [b] through [end_date] when
    each day is at least [step] long *)
Definition passes_bound (step end_date b : Z) : nat :=
  if b <=? end_date then S (Z.to_nat ((end_date - b) / step)) else O.
(** * Properties *)

(** ** Helper facts *)

Lemma max_with_gtb (a b : Z) : max_with Z.gtb a b = Z.max a b.
Proof.
  unfold max_with. rewrite Z.gtb_ltb.
  destruct (Z.ltb_spec a b); lia.
Qed.

(** ** The watermark store *)

Section WatermarkStore.
Variable parse : value -> outcome Z.
Variables state_pk cursor_field class_name : string.

Local Abbreviation state_filter :=
  (Instagram.state_filter parse state_pk cursor_field class_name).

(** On a record with a parsable cursor and a known partition the
    filter is a comparison of the two instants. *)
Lemma state_filter_compare (st : gmap string Z) (record : gmap string value)
    (d : value) (c w : Z) (a : string) :
  record !! state_pk = Some d -> parse d = Return c ->
  record !! cursor_field = Some (VStr a) -> st !! a = Some w ->
  state_filter st record =
    if w <? c
    then Return (Some record, <[a := c]> st,
                 [Instagram.Advancing (Instagram.stream_name class_name)
                    cursor_field a w c])
    else Return (None, st, []).
Proof.
  intros Hd Hp Hk Hw. unfold Instagram.state_filter, getitem.
  rewrite Hd. cbn. rewrite Hp. cbn. rewrite Hk. cbn. rewrite Hw. cbn.
  rewrite Z.geb_leb, max_with_gtb.
  destruct (Z.leb_spec c w), (Z.ltb_spec w c); try lia; [reflexivity|].
  by rewrite Z.max_l by lia.
Qed.

(** C1. A record whose cursor equals the stored watermark of its
    partition is filtered out and the state stays as it was; a record
    is returned exactly when its cursor is strictly greater than the
    stored watermark. *)
Theorem state_filter_boundary (st : gmap string Z) (record : gmap string value)
    (d : value) (c w : Z) (a : string) :
  record !! state_pk = Some d -> parse d = Return c ->
  record !! cursor_field = Some (VStr a) -> st !! a = Some w ->
  (c = w -> state_filter st record = Return (None, st, []))
  /\ ((exists r st' log, state_filter st record = Return (Some r, st', log)) <-> w < c)
  /\ (forall r st' log, state_filter st record = Return (Some r, st', log) -> r = record).
Proof.
  intros Hd Hp Hk Hw.
  rewrite (state_filter_compare st record d c w a Hd Hp Hk Hw).
  destruct (Z.ltb_spec w c) as [Hlt|Hge]; (split; [|split]).
  - intros ->. lia.
  - split; [intros _; exact Hlt | intros _; eauto].
  - intros r st' log [= <- _ _]. reflexivity.
  - intros _. reflexivity.
  - split; [intros (r & st' & log & [=]) | lia].
  - intros r st' log [=].
Qed.
End WatermarkStore.

Lemma state_filter_boundary_witness :
  let st := Fixtures.one_account in
  let record := Fixtures.day_record "1609804800" in
  let run := Instagram.state_filter Fixtures.parse_instant "date" "business_account_id"
               "UserInsights" st record in
  (1609804800 = 1609804800 -> run = Return (None, st, []))
  /\ ((exists r st' log, run = Return (Some r, st', log)) <-> 1609804800 < 1609804800)
  /\ (forall r st' log, run = Return (Some r, st', log) -> r = record).
Proof.
  apply (state_filter_boundary Fixtures.parse_instant "date" "business_account_id"
           "UserInsights" Fixtures.one_account (Fixtures.day_record "1609804800")
           (VStr "1609804800") 1609804800 1609804800 "17841400");
    reflexivity.
Defined.

Lemma str_compare_refl (a : string) : String.compare a a = Eq.
Proof.
  induction a as [|c a IH]; [reflexivity|]. cbn.
  unfold Ascii.compare. by rewrite N.compare_refl.
Qed.

Lemma str_le_refl (a : string) : str_le a a.
Proof. unfold str_le, String.leb. by rewrite str_compare_refl. Qed.

Lemma str_max_spec (cur new : string) :
  let m := max_with Square.str_gt cur new in
  (m = cur \/ m = new) /\ str_le cur m /\ str_le new m.
Proof.
  unfold max_with, Square.str_gt, String.ltb.
  pose proof (String.compare_antisym cur new) as Hanti.
  pose proof (str_le_refl cur). pose proof (str_le_refl new).
  assert (Hflip : String.compare cur new <> Lt -> str_le new cur).
  { intros Hne. unfold str_le, String.leb.
    destruct (String.compare new cur); done. }
  destruct (String.compare cur new) eqn:Hc; cbn.
  - split; [by left|]. split; [done|]. by apply Hflip.
  - split; [by right|]. split; [|done]. unfold str_le, String.leb. by rewrite Hc.
  - split; [by left|]. split; [done|]. by apply Hflip.
Qed.

(** Over a run of records of one partition the watermark of the
    partition only rises, and it ends at or above every cursor of the
    run. *)
Lemma filter_all_watermark (parse : value -> outcome Z)
    (state_pk cursor_field class_name a : string)
    (records : list (gmap string value)) :
  Forall (fun record : gmap string value =>
            record !! cursor_field = Some (VStr a)
            /\ exists d c, record !! state_pk = Some d /\ parse d = Return c) records ->
  forall (st : gmap string Z) (w : Z),
    st !! a = Some w ->
    exists passed st' w',
      Instagram.filter_all parse state_pk cursor_field class_name st records
        = Return (passed, st')
      /\ st' !! a = Some w' /\ w <= w'
      /\ forall (record : gmap string value) d c,
           record ∈ records -> record !! state_pk = Some d -> parse d = Return c ->
           c <= w'.
Proof.
  induction 1 as [|record records (Hk & d & c & Hd & Hp) _ IH]; intros st w Hw.
  - exists [], st, w. cbn. repeat split; [done|lia|].
    intros record d c Hin. by apply elem_of_nil in Hin.
  - cbn [Instagram.filter_all].
    rewrite (state_filter_compare parse state_pk cursor_field class_name
               st record d c w a Hd Hp Hk Hw).
    destruct (Z.ltb_spec w c) as [Hlt|Hge]; cbn.
    + destruct (IH (<[a := c]> st) c) as (passed & st' & w' & Hrun & Hw' & Hle & Hall);
        [by rewrite lookup_insert_eq|].
      rewrite Hrun. cbn. eexists _, st', w'. split; [reflexivity|].
      split; [done|]. split; [lia|].
      intros r d' c' Hin Hd' Hp'. apply elem_of_cons in Hin as [->|Hin]; [|by eauto].
      rewrite Hd in Hd'. injection Hd' as <-. rewrite Hp in Hp'. injection Hp' as <-. lia.
    + destruct (IH st w Hw) as (passed & st' & w' & Hrun & Hw' & Hle & Hall).
      rewrite Hrun. cbn. eexists _, st', w'. split; [reflexivity|].
      split; [done|]. split; [lia|].
      intros r d' c' Hin Hd' Hp'. apply elem_of_cons in Hin as [->|Hin]; [|by eauto].
      rewrite Hd in Hd'. injection Hd' as <-. rewrite Hp in Hp'. injection Hp' as <-. lia.
Qed.

(** A state that does not hold the cursor field yet is set to the
    start date, whatever the record carries. *)
Lemma get_updated_state_first (cursor_field start_date : string)
    (st : option (gmap string string)) (latest_record : gmap string value) :
  (forall m, st = Some m -> m !! cursor_field = None) ->
  Square.get_updated_state cursor_field start_date st latest_record
    = Return {[ cursor_field := start_date ]}.
Proof.
  intros H. unfold Square.get_updated_state.
  destruct st as [m|]; [|reflexivity]. by rewrite (H m eq_refl).
Qed.

(** C2, where it fails.  The first record of a fresh Square stream
    carries a cursor above the start date, and the state stored after
    [get_updated_state] is the start date: it is below the candidate, so
    it is the maximum of the candidate and no previous value. *)
Lemma get_updated_state_first_record_not_max :
  Square.get_updated_state "created_at" "2021-01-01T00:00:00+00:00" (Some ∅)
    {[ "created_at" := VStr "2021-06-15T08:00:00.000Z" ]}
    = Return {[ "created_at" := "2021-01-01T00:00:00+00:00" ]}
  /\ ~ (exists previous,
          max_with Square.str_gt previous "2021-06-15T08:00:00.000Z"
            = "2021-01-01T00:00:00+00:00").
Proof.
  split; [reflexivity|]. intros [previous Hmax].
  destruct (str_max_spec previous "2021-06-15T08:00:00.000Z") as (_ & _ & Hle).
  rewrite Hmax in Hle. discriminate Hle.
Qed.

(** C2, amended.  An advance never lowers a stored watermark.  After
    [state_filter] the watermark of the record's partition is the
    maximum of its previous value and the record's cursor, and the other
    partitions keep theirs; after [get_updated_state] on a state that
    holds the cursor field, the stored value is the greater of the
    previous one and the record's; on a state that does not hold it yet,
    [get_updated_state] stores the start date. *)
Theorem watermark_is_max_of_previous_and_candidate :
  (forall parse state_pk cursor_field class_name
          (st : gmap string Z) (record : gmap string value) d c w a,
      record !! state_pk = Some d -> parse d = Return c ->
      record !! cursor_field = Some (VStr a) -> st !! a = Some w ->
      exists r st' log,
        Instagram.state_filter parse state_pk cursor_field class_name st record
          = Return (r, st', log)
        /\ st' !! a = Some (Z.max w c) /\ w <= Z.max w c
        /\ forall b, b <> a -> st' !! b = st !! b)
  /\ (forall cursor_field start_date (st : gmap string string)
             (latest_record : gmap string value) cur new,
      st !! cursor_field = Some cur ->
      latest_record !! cursor_field = Some (VStr new) ->
      exists m,
        Square.get_updated_state cursor_field start_date (Some st) latest_record
          = Return {[ cursor_field := m ]}
        /\ (m = cur \/ m = new) /\ str_le cur m /\ str_le new m)
  /\ (forall cursor_field start_date (st : option (gmap string string))
             (latest_record : gmap string value),
      (forall m, st = Some m -> m !! cursor_field = None) ->
      Square.get_updated_state cursor_field start_date st latest_record
        = Return {[ cursor_field := start_date ]}).
Proof.
  split; [|split; [|exact get_updated_state_first]].
  - intros parse spk cf cn st record d c w a Hd Hp Hk Hw.
    rewrite (state_filter_compare parse spk cf cn st record d c w a Hd Hp Hk Hw).
    destruct (Z.ltb_spec w c) as [Hlt|Hge].
    + eexists _, _, _. split; [reflexivity|].
      rewrite lookup_insert_eq, Z.max_r by lia.
      repeat split; [lia|]. intros b Hb. by rewrite lookup_insert_ne.
    + eexists _, _, _. split; [reflexivity|].
      rewrite Hw, Z.max_l by lia. repeat split; lia.
  - intros cf start st latest cur new Hcur Hnew.
    exists (max_with Square.str_gt cur new). split.
    + unfold Square.get_updated_state, getitem. rewrite Hcur, Hnew. reflexivity.
    + apply str_max_spec.
Qed.

Lemma watermark_is_max_of_previous_and_candidate_witness :
  (exists r st' log,
      Instagram.state_filter Fixtures.parse_instant "date" "business_account_id"
        "UserInsights" Fixtures.one_account (Fixtures.day_record "1609891200")
        = Return (r, st', log)
      /\ st' !! "17841400" = Some (Z.max 1609804800 1609891200)
      /\ 1609804800 <= Z.max 1609804800 1609891200
      /\ forall b, b <> "17841400" -> st' !! b = Fixtures.one_account !! b)
  /\ (exists m,
        Square.get_updated_state "created_at" "2021-01-01T00:00:00+00:00"
          (Some {[ "created_at" := "2021-06-14T13:47:56.799Z" ]})
          {[ "created_at" := VStr "2021-06-15T08:00:00.000Z" ]}
          = Return {[ "created_at" := m ]}
        /\ (m = "2021-06-14T13:47:56.799Z" \/ m = "2021-06-15T08:00:00.000Z")
        /\ str_le "2021-06-14T13:47:56.799Z" m
        /\ str_le "2021-06-15T08:00:00.000Z" m)
  /\ Square.get_updated_state "created_at" "2021-01-01T00:00:00+00:00" None
       {[ "created_at" := VStr "2021-06-15T08:00:00.000Z" ]}
       = Return {[ "created_at" := "2021-01-01T00:00:00+00:00" ]}.
Proof.
  split; [|split].
  - apply (proj1 watermark_is_max_of_previous_and_candidate
             Fixtures.parse_instant "date" "business_account_id" "UserInsights"
             Fixtures.one_account (Fixtures.day_record "1609891200")
             (VStr "1609891200") 1609891200 1609804800 "17841400");
      reflexivity.
  - apply (proj1 (proj2 watermark_is_max_of_previous_and_candidate)
             "created_at" "2021-01-01T00:00:00+00:00"); reflexivity.
  - apply (proj2 (proj2 watermark_is_max_of_previous_and_candidate)).
    intros m Hm. discriminate Hm.
Defined.

(** ** The retry policy *)

Section RetryPolicy.
Context {St A : Type}.
Variable retryable : exn -> bool.
Variable op : St -> outcome A * St.

Local Abbreviation attempts := (Retry.attempts retryable op).
Local Abbreviation fails_times := (Retry.fails_times retryable op).

(** [k] retryable failures use up [k] of the attempts. *)
Lemma attempts_after_failures (k : nat) (s s1 : St) :
  fails_times k s s1 ->
  forall n calls, (k <= n)%nat ->
    attempts n s calls = attempts (n - k) s1 (calls + k).
Proof.
  induction 1 as [s|k s e s1 s' Hop Hre Hfails IH]; intros n calls Hle.
  - by rewrite Nat.sub_0_r, Nat.add_0_r.
  - destruct n as [|n]; [lia|]. cbn [Retry.attempts]. rewrite Hop, Hre.
    rewrite IH by lia. f_equal. lia.
Qed.

Lemma attempts_success (n calls : nat) (s s' : St) (v : A) :
  op s = (Return v, s') -> attempts n s calls = (Retry.Succeeded v, s', S calls).
Proof. intros Hop. destruct n; cbn; by rewrite Hop. Qed.

Lemma attempts_last (calls : nat) (s s' : St) (e : exn) :
  op s = (Raise e, s') -> retryable e = true ->
  attempts 0 s calls = (Retry.Exhausted e, s', S calls).
Proof. intros Hop Hre. cbn. by rewrite Hop, Hre. Qed.

Lemma attempts_giveup (n calls : nat) (s s' : St) (e : exn) :
  op s = (Raise e, s') -> retryable e = false ->
  attempts n s calls = (Retry.Propagated e, s', S calls).
Proof. intros Hop Hre. destruct n; cbn; by rewrite Hop, Hre. Qed.

(** Among [k] failures in a row, the first [n] and the one after. *)
Lemma fails_times_split (n k : nat) (s s' : St) :
  fails_times k s s' -> (n < k)%nat ->
  exists s1 e s2, fails_times n s s1 /\ op s1 = (Raise e, s2)
                  /\ retryable e = true.
Proof.
  intros Hfails. revert n.
  induction Hfails as [s|k s e s1 s' Hop Hre Hfails IH]; intros n Hlt; [lia|].
  destruct n as [|n].
  - exists s, e, s1. split; [constructor|done].
  - destruct (IH n) as (s2 & e' & s3 & Hn & Hop' & Hre'); [lia|].
    exists s2, e', s3. split; [|done]. econstructor; eauto.
Qed.
End RetryPolicy.

(** C3. Under the policy with its default of seven tries, on provider
    errors: an operation that fails [k < 7] times and then succeeds
    gives its result after [k + 1] invocations; one that fails seven
    times or more ends with the seventh error after exactly seven
    invocations; an error of another type propagates after a single
    invocation. *)
Theorem retry_bound {St A : Type} (op : St -> outcome A * St) :
  (forall k s s1 v s2,
      Retry.fails_times Retry.is_FacebookRequestError op k s s1 ->
      (k < 7)%nat -> op s1 = (Return v, s2) ->
      Retry.backoff_policy op s = (Retry.Succeeded v, s2, S k))
  /\ (forall k s s',
      Retry.fails_times Retry.is_FacebookRequestError op k s s' ->
      (7 <= k)%nat ->
      exists s1 e s2,
        Retry.fails_times Retry.is_FacebookRequestError op 6 s s1
        /\ op s1 = (Raise e, s2)
        /\ Retry.backoff_policy op s = (Retry.Exhausted e, s2, 7%nat))
  /\ (forall s e s',
      op s = (Raise e, s') -> Retry.is_FacebookRequestError e = false ->
      Retry.backoff_policy op s = (Retry.Propagated e, s', 1%nat)).
Proof.
  unfold Retry.backoff_policy, Retry.retry_policy, Retry.default_max_tries.
  cbn [Nat.pred]. split; [|split].
  - intros k s s1 v s2 Hfails Hlt Hop.
    rewrite (attempts_after_failures _ _ k s s1 Hfails) by lia.
    by rewrite (attempts_success _ _ _ _ _ _ _ Hop).
  - intros k s s' Hfails Hle.
    destruct (fails_times_split _ _ 6 k s s' Hfails) as (s1 & e & s2 & H6 & Hop & Hre);
      [lia|].
    exists s1, e, s2. split; [done|]. split; [done|].
    rewrite (attempts_after_failures _ _ 6 s s1 H6) by lia.
    by rewrite Nat.sub_diag, (attempts_last _ _ _ _ _ _ Hop Hre).
  - intros s e s' Hop Hre. by apply attempts_giveup.
Qed.

Lemma retry_bound_witness :
  Retry.backoff_policy (Fixtures.flaky 2) 0%nat = (Retry.Succeeded 2%nat, 3%nat, 3%nat)
  /\ (exists s1 e s2,
        Retry.fails_times Retry.is_FacebookRequestError (Fixtures.flaky 9) 6 0%nat s1
        /\ Fixtures.flaky 9 s1 = (Raise e, s2)
        /\ Retry.backoff_policy (Fixtures.flaky 9) 0%nat = (Retry.Exhausted e, s2, 7%nat))
  /\ Retry.backoff_policy Fixtures.broken 0%nat
       = (Retry.Propagated (OtherError "ConnectionError"), 1%nat, 1%nat).
Proof.
  split; [|split].
  - apply (proj1 (retry_bound (Fixtures.flaky 2)) 2%nat 0%nat 2%nat 2%nat 3%nat);
      [|lia|reflexivity].
    repeat (eapply Retry.fails_S; [reflexivity|reflexivity|]). apply Retry.fails_O.
  - apply (proj1 (proj2 (retry_bound (Fixtures.flaky 9))) 9%nat 0%nat 9%nat); [|lia].
    repeat (eapply Retry.fails_S; [reflexivity|reflexivity|]). apply Retry.fails_O.
  - apply (proj2 (proj2 (retry_bound Fixtures.broken))); reflexivity.
Defined.

(** ** The paginator *)

(** C4. A provider cursor whose buffers are [a, b], then [c], then
    empty with the completion flag set: the generator yields [a], [b],
    [c] in this order, each once, loads a page twice and ends without a
    further load. *)
Theorem pagination_three_pages {Cursor Item : Type}
    (_queue : Cursor -> list Item) (_finished_iteration : Cursor -> bool)
    (get_instance_cursor : outcome Cursor) (load_next_page : Cursor -> outcome Cursor)
    (c0 c1 c2 : Cursor) (a b c : Item) (fuel : nat) :
  get_instance_cursor = Return c0 ->
  _queue c0 = [a; b] -> _finished_iteration c0 = false ->
  load_next_page c0 = Return c1 ->
  _queue c1 = [c] -> _finished_iteration c1 = false ->
  load_next_page c1 = Return c2 ->
  _queue c2 = [] -> _finished_iteration c2 = true ->
  (2 <= fuel)%nat ->
  exists tr,
    Paginator.pagination _queue _finished_iteration get_instance_cursor
      load_next_page fuel = Some (tr, Paginator.StopIteration)
    /\ tr = [Paginator.Yield a; Paginator.Yield b; Paginator.LoadNextPage;
             Paginator.Yield c; Paginator.LoadNextPage]
    /\ Paginator.yielded tr = [a; b; c]
    /\ Paginator.loads tr = 2%nat.
Proof.
  intros Hget Hq0 Hf0 Hl0 Hq1 Hf1 Hl1 Hq2 Hf2 Hfuel.
  destruct fuel as [|[|fuel]]; [lia|lia|].
  eexists. split; [|split; [reflexivity|split; reflexivity]].
  unfold Paginator.pagination. rewrite Hget, Hf0, Hq0. cbn.
  rewrite Hl0, Hf1, Hq1. cbn. rewrite Hl1, Hf2, Hq2. by destruct fuel.
Qed.

Lemma pagination_three_pages_witness :
  exists tr,
    Paginator.pagination Fixtures.page_queue Fixtures.page_finished (Return 0%nat)
      Fixtures.page_load 5 = Some (tr, Paginator.StopIteration)
    /\ tr = [Paginator.Yield "a"; Paginator.Yield "b"; Paginator.LoadNextPage;
             Paginator.Yield "c"; Paginator.LoadNextPage]
    /\ Paginator.yielded tr = ["a"; "b"; "c"]
    /\ Paginator.loads tr = 2%nat.
Proof.
  apply (pagination_three_pages Fixtures.page_queue Fixtures.page_finished
           (Return 0%nat) Fixtures.page_load 0%nat 1%nat 2%nat "a" "b" "c" 5);
    (reflexivity || lia).
Defined.

(** ** The rate governor *)

(** The governor on a well-formed usage header: utilization 95 and a
    pause of five minutes, slept as 300 seconds. *)
Example handle_call_rate_limit_pauses :
  RateGovernor.parse_call_rate_header Json.json_loads
    {[ "x-app-usage" := Fixtures.usage_text ]}
    = Return (VInt 95, RateGovernor.Minutes 5 0)
  /\ RateGovernor.handle_call_rate_limit Json.json_loads
       {[ "x-app-usage" := Fixtures.usage_text ]}
     = Return [RateGovernor.Warn (VInt 95) (RateGovernor.Minutes 5 0);
               RateGovernor.Sleep (300, 0)].
Proof. split; vm_compute; reflexivity. Qed.

(** C5, where it fails.  A usage header that is not JSON: the decoder
    raises and the exception leaves [parse_call_rate_header],
    [handle_call_rate_limit] and [call]. *)
Lemma malformed_usage_header_raises :
  RateGovernor.parse_call_rate_header Json.json_loads {[ "x-app-usage" := "not json" ]}
    = Raise JSONDecodeError
  /\ RateGovernor.handle_call_rate_limit Json.json_loads {[ "x-app-usage" := "not json" ]}
     = Raise JSONDecodeError
  /\ RateGovernor.call Json.json_loads (fun response : gmap string string => response)
       (Return {[ "x-app-usage" := "not json" ]})
     = Raise JSONDecodeError.
Proof. repeat split; vm_compute; reflexivity. Qed.

(** C5, amended.  Headers without a usage header, or with empty ones,
    give zero utilization and a zero pause, and the governor does
    nothing.  A usage header that [json.loads] rejects is not absorbed:
    the decoder's exception leaves [parse_call_rate_header],
    [handle_call_rate_limit] and [call]. *)
Theorem rate_header_absent_or_malformed
    (json_loads : string -> outcome value) (headers : gmap string string) :
  (RateGovernor.header_truthy (RateGovernor.find_usage_header headers) = false ->
     RateGovernor.parse_call_rate_header json_loads headers
       = Return (VInt 0, RateGovernor.duration_zero)
     /\ RateGovernor.handle_call_rate_limit json_loads headers = Return [])
  /\ (forall text e,
        RateGovernor.find_usage_header headers = Some text ->
        text <> EmptyString ->
        json_loads text = Raise e ->
        RateGovernor.parse_call_rate_header json_loads headers = Raise e
        /\ RateGovernor.handle_call_rate_limit json_loads headers = Raise e
        /\ forall (Response : Type) (get_headers : Response -> gmap string string)
                  (response : Response),
             get_headers response = headers ->
             RateGovernor.call json_loads get_headers (Return response) = Raise e).
Proof.
  split.
  - intros Hfalsy.
    assert (Hparse : RateGovernor.parse_call_rate_header json_loads headers
                     = Return (VInt 0, RateGovernor.duration_zero)).
    { unfold RateGovernor.parse_call_rate_header.
      destruct (RateGovernor.find_usage_header headers); [|reflexivity].
      by rewrite Hfalsy. }
    split; [exact Hparse|].
    unfold RateGovernor.handle_call_rate_limit. rewrite Hparse. reflexivity.
  - intros text e Hfind Hne Hloads.
    assert (Hparse : RateGovernor.parse_call_rate_header json_loads headers = Raise e).
    { unfold RateGovernor.parse_call_rate_header. rewrite Hfind.
      cbn [RateGovernor.header_truthy].
      destruct (String.eqb_spec text EmptyString) as [->|_]; [done|].
      cbn. rewrite Hloads. reflexivity. }
    assert (Hhandle : RateGovernor.handle_call_rate_limit json_loads headers = Raise e).
    { unfold RateGovernor.handle_call_rate_limit. rewrite Hparse. reflexivity. }
    split; [exact Hparse|]. split; [exact Hhandle|].
    intros Response get_headers response <-.
    unfold RateGovernor.call. cbn. rewrite Hhandle. reflexivity.
Qed.

Lemma rate_header_absent_or_malformed_witness :
  (RateGovernor.parse_call_rate_header Json.json_loads {[ "content-type" := "text/json" ]}
     = Return (VInt 0, RateGovernor.duration_zero)
   /\ RateGovernor.handle_call_rate_limit Json.json_loads
        {[ "content-type" := "text/json" ]} = Return [])
  /\ RateGovernor.handle_call_rate_limit Json.json_loads
       {[ "x-ad-account-usage" := "{acc_id_util_pct: 9" ]} = Raise JSONDecodeError.
Proof.
  split.
  - apply (proj1 (rate_header_absent_or_malformed Json.json_loads
                    {[ "content-type" := "text/json" ]})).
    reflexivity.
  - apply (proj2 (rate_header_absent_or_malformed Json.json_loads
                    {[ "x-ad-account-usage" := "{acc_id_util_pct: 9" ]})
             "{acc_id_util_pct: 9" JSONDecodeError);
      [reflexivity|discriminate|reflexivity].
Defined.

(** ** The record shaper: insight flattening *)

Lemma append_injective (n a b : string) : n +:+ a = n +:+ b -> a = b.
Proof. induction n as [|c n IH]; cbn; [done|]. intros [= H]. by apply IH. Qed.

Lemma insight_key_week (i : Shaper.insight) :
  Shaper.period i = VStr "week" -> Shaper.insight_key i = Shaper.name i +:+ "_week".
Proof. unfold Shaper.insight_key. by intros ->. Qed.

Lemma insight_key_days_28 (i : Shaper.insight) :
  Shaper.period i = VStr "days_28" ->
  Shaper.insight_key i = Shaper.name i +:+ "_days_28".
Proof. unfold Shaper.insight_key. by intros ->. Qed.

Lemma insight_key_unqualified (i : Shaper.insight) :
  Shaper.period i <> VStr "week" -> Shaper.period i <> VStr "days_28" ->
  Shaper.insight_key i = Shaper.name i.
Proof.
  unfold Shaper.insight_key. intros Hw Hd.
  destruct (Shaper.period i) as [| | | |p| |]; try reflexivity. cbn.
  destruct (String.eqb_spec p "week") as [->|_]; [done|].
  destruct (String.eqb_spec p "days_28") as [->|_]; [done|]. reflexivity.
Qed.

(** The loop body adds the entry's key and keeps the keys it found. *)
Lemma add_insight_keys (rec rec' : gmap string value) (i : Shaper.insight) :
  Shaper.add_insight rec i = Return rec' ->
  is_Some (rec' !! Shaper.insight_key i)
  /\ forall k, is_Some (rec !! k) -> is_Some (rec' !! k).
Proof.
  unfold Shaper.add_insight, Shaper.first_value, getitem.
  destruct (Shaper.values i) as [|p rest]; [done|]. cbn.
  destruct (p !! "value") as [v|]; [|done]. cbn.
  assert (Hins : forall k, is_Some (rec !! k) \/ k = Shaper.insight_key i ->
                           is_Some (<[Shaper.insight_key i := v]> rec !! k)).
  { intros k [Hk| ->]; [|by rewrite lookup_insert_eq].
    destruct (decide (Shaper.insight_key i = k)) as [<-|Hne].
    - by rewrite lookup_insert_eq.
    - by rewrite lookup_insert_ne. }
  destruct (negb _).
  - destruct (p !! "end_time") as [t|]; [|done]. cbn. intros [= <-].
    assert (Hdate : forall k, is_Some (<[Shaper.insight_key i := v]> rec !! k) ->
               is_Some (<["date" := t]> (<[Shaper.insight_key i := v]> rec) !! k)).
    { intros k Hk. destruct (decide ("date" = k)) as [<-|Hne].
      - by rewrite lookup_insert_eq.
      - by rewrite lookup_insert_ne. }
    split; [apply Hdate, Hins; by right | intros k Hk; apply Hdate, Hins; by left].
  - intros [= <-].
    split; [apply Hins; by right | intros k Hk; apply Hins; by left].
Qed.

Lemma add_insights_keys (l : list Shaper.insight) :
  forall rec rec' : gmap string value,
    Shaper.add_insights rec l = Return rec' ->
    (forall i, i ∈ l -> is_Some (rec' !! Shaper.insight_key i))
    /\ forall k, is_Some (rec !! k) -> is_Some (rec' !! k).
Proof.
  induction l as [|i l IH]; intros rec rec'; cbn.
  - intros [= <-]. split; [|done]. intros i Hi. by apply elem_of_nil in Hi.
  - destruct (Shaper.add_insight rec i) as [rec1|e] eqn:Hadd; [|done]. cbn.
    intros Hrest. destruct (add_insight_keys _ _ _ Hadd) as [Hkey Hkeep].
    destruct (IH _ _ Hrest) as [Hall Hkeep'].
    split; [|by auto].
    intros j Hj. apply elem_of_cons in Hj as [->|Hj]; auto.
Qed.

(** Readable entries are merged without an exception. *)
Lemma add_insights_returns (l : list Shaper.insight) :
  Forall readable l ->
  forall rec : gmap string value, exists rec', Shaper.add_insights rec l = Return rec'.
Proof.
  induction 1 as [|i l (p & rest & Hv & [v Hval] & [t Ht]) _ IH]; intros rec; cbn.
  - by eexists.
  - unfold Shaper.add_insight, Shaper.first_value, getitem.
    rewrite Hv. cbn. rewrite Hval. cbn. rewrite Ht.
    destruct (negb _); cbn; apply IH.
Qed.

(** C6. In the merged record, two entries of one name with the periods
    "week" and "days_28" are found under the two distinct keys
    [name_week] and [name_days_28]; an entry with any other period, "day"
    among them, is found under its name alone. *)
Theorem insight_keys_by_period (page_id account_id : value)
    (insight_list : list Shaper.insight) :
  (forall rec i1 i2,
      Shaper.insight_record page_id account_id insight_list = Return rec ->
      i1 ∈ insight_list -> i2 ∈ insight_list ->
      Shaper.name i1 = Shaper.name i2 ->
      Shaper.period i1 = VStr "week" -> Shaper.period i2 = VStr "days_28" ->
      Shaper.insight_key i1 = Shaper.name i1 +:+ "_week"
      /\ Shaper.insight_key i2 = Shaper.name i1 +:+ "_days_28"
      /\ Shaper.insight_key i1 <> Shaper.insight_key i2
      /\ is_Some (rec !! (Shaper.name i1 +:+ "_week"))
      /\ is_Some (rec !! (Shaper.name i1 +:+ "_days_28")))
  /\ (forall rec i,
        Shaper.insight_record page_id account_id insight_list = Return rec ->
        i ∈ insight_list ->
        Shaper.period i <> VStr "week" -> Shaper.period i <> VStr "days_28" ->
        Shaper.insight_key i = Shaper.name i /\ is_Some (rec !! Shaper.name i))
  /\ (Forall readable insight_list ->
      exists rec, Shaper.insight_record page_id account_id insight_list = Return rec).
Proof.
  unfold Shaper.insight_record. split; [|split].
  - intros rec i1 i2 Hrec H1 H2 Hname Hweek Hdays.
    destruct (add_insights_keys _ _ _ Hrec) as [Hall _].
    pose proof (Hall _ H1) as Hk1. pose proof (Hall _ H2) as Hk2.
    rewrite (insight_key_week i1 Hweek) in *.
    rewrite (insight_key_days_28 i2 Hdays), <- Hname in *.
    repeat split; try done.
    intros Heq. by apply append_injective in Heq.
  - intros rec i Hrec Hi Hw Hd.
    destruct (add_insights_keys _ _ _ Hrec) as [Hall _].
    pose proof (Hall _ Hi) as Hk.
    by rewrite (insight_key_unqualified i Hw Hd) in *.
  - intros Hall. by apply add_insights_returns.
Qed.

Lemma insight_keys_by_period_witness :
  let l := [Fixtures.reach_day; Fixtures.reach_week; Fixtures.reach_days_28] in
  exists rec,
    Shaper.insight_record (VStr "112") (VStr "17841400") l = Return rec
    /\ rec !! "reach" = Some (VInt 11)
    /\ rec !! "reach_week" = Some (VInt 70)
    /\ rec !! "reach_days_28" = Some (VInt 250)
    /\ Shaper.insight_key Fixtures.reach_week <> Shaper.insight_key Fixtures.reach_days_28
    /\ is_Some (rec !! (Shaper.name Fixtures.reach_week +:+ "_week"))
    /\ is_Some (rec !! (Shaper.name Fixtures.reach_week +:+ "_days_28"))
    /\ is_Some (rec !! Shaper.name Fixtures.reach_day).
Proof.
  intros l. eexists. split; [reflexivity|].
  split; [reflexivity|]. split; [reflexivity|]. split; [reflexivity|].
  pose proof (insight_keys_by_period (VStr "112") (VStr "17841400") l) as (Hpair & Hday & _).
  destruct (Hpair _ Fixtures.reach_week Fixtures.reach_days_28 eq_refl)
    as (_ & _ & Hne & Hweek & Hdays);
    [apply list_elem_of_further, list_elem_of_here
    |apply list_elem_of_further, list_elem_of_further, list_elem_of_here
    |reflexivity|reflexivity|reflexivity|].
  destruct (Hday _ Fixtures.reach_day eq_refl) as [_ Hname];
    [apply list_elem_of_here|discriminate|discriminate|].
  repeat split; assumption.
Defined.

(** ** The record shaper: URL sanitization *)

Lemma append_String (x : ascii) (a b : string) :
  String x a +:+ b = String x (a +:+ b).
Proof. reflexivity. Qed.

Lemma append_Empty (b : string) : EmptyString +:+ b = b.
Proof. reflexivity. Qed.

Lemma lacks_app (c : ascii) (a b : string) :
  lacks c (a +:+ b) = lacks c a && lacks c b.
Proof.
  induction a as [|x a IH]; [done|].
  rewrite append_String. cbn. by rewrite IH, andb_assoc.
Qed.

Lemma split_first_lacks (c : ascii) (a : string) :
  lacks c a = true -> Shaper.split_first c a = (a, None).
Proof.
  induction a as [|x a IH]; cbn; [done|].
  intros [Hx Ha]%andb_true_iff. apply negb_true_iff in Hx. rewrite Hx, (IH Ha). done.
Qed.

Lemma split_first_app (c : ascii) (a b : string) :
  lacks c a = true -> Shaper.split_first c (a +:+ String c b) = (a, Some b).
Proof.
  induction a as [|x a IH]; [rewrite append_Empty|rewrite append_String]; cbn.
  - intros _. by rewrite Ascii.eqb_refl.
  - intros [Hx Ha]%andb_true_iff. apply negb_true_iff in Hx. by rewrite Hx, (IH Ha).
Qed.

Lemma split_first_parts (c : ascii) (s : string) :
  lacks c (Shaper.split_first c s).1 = true
  /\ s = match (Shaper.split_first c s).2 with
         | Some r => (Shaper.split_first c s).1 +:+ String c r
         | None => (Shaper.split_first c s).1
         end.
Proof.
  induction s as [|x s [IH1 IH2]]; cbn; [done|].
  destruct (Ascii.eqb_spec x c) as [->|Hne]; cbn; [done|].
  destruct (Shaper.split_first c s) as [h t]; cbn in *.
  split.
  - rewrite IH1, andb_true_r. apply negb_true_iff. by apply Ascii.eqb_neq.
  - destruct t; rewrite ?append_String; by rewrite IH2 at 1.
Qed.

Lemma lacks_split_first (d c : ascii) (s : string) :
  lacks d s = true ->
  lacks d (Shaper.split_first c s).1 = true
  /\ forall r, (Shaper.split_first c s).2 = Some r -> lacks d r = true.
Proof.
  induction s as [|x s IH]; cbn; [done|].
  intros [Hx Hs]%andb_true_iff.
  destruct (Ascii.eqb x c); cbn.
  - split; [done|]. by intros r [= <-].
  - destruct (Shaper.split_first c s) as [h t]; cbn in *.
    destruct (IH Hs) as [IH1 IH2]. by rewrite Hx, IH1.
Qed.

Lemma split_nonempty (c : ascii) (s : string) : Shaper.split c s <> [].
Proof.
  induction s as [|x s IH]; cbn; [done|].
  destruct (Ascii.eqb x c); [done|]. by destruct (Shaper.split c s).
Qed.

Lemma split_lacks (c : ascii) (s : string) :
  Forall (fun x => lacks c x = true) (Shaper.split c s).
Proof.
  induction s as [|x s IH]; cbn; [by repeat constructor|].
  destruct (Ascii.eqb_spec x c) as [->|Hne]; [by constructor|].
  pose proof (split_nonempty c s) as Hnil.
  destruct (Shaper.split c s) as [|h t]; [done|].
  inversion_clear IH as [|? ? Hh Ht]. constructor; [|done]. cbn.
  rewrite Hh, andb_true_r. apply negb_true_iff. by apply Ascii.eqb_neq.
Qed.

Lemma lacks_split (d c : ascii) (s : string) :
  lacks d s = true -> Forall (fun x => lacks d x = true) (Shaper.split c s).
Proof.
  induction s as [|x s IH]; cbn; [by repeat constructor|].
  intros [Hx Hs]%andb_true_iff. specialize (IH Hs).
  destruct (Ascii.eqb x c); [by constructor|].
  pose proof (split_nonempty c s) as Hnil.
  destruct (Shaper.split c s) as [|h t]; [done|].
  inversion_clear IH as [|? ? Hh Ht]. constructor; [|done]. cbn. by rewrite Hx, Hh.
Qed.

Lemma split_lacks_one (c : ascii) (s : string) :
  lacks c s = true -> Shaper.split c s = [s].
Proof.
  induction s as [|x s IH]; cbn; [done|].
  intros [Hx Hs]%andb_true_iff. apply negb_true_iff in Hx. by rewrite Hx, (IH Hs).
Qed.

Lemma split_app (c : ascii) (a b : string) :
  lacks c a = true ->
  Shaper.split c (a +:+ String c b) = a :: Shaper.split c b.
Proof.
  induction a as [|x a IH]; [rewrite append_Empty|rewrite append_String]; cbn.
  - intros _. by rewrite Ascii.eqb_refl.
  - intros [Hx Ha]%andb_true_iff. apply negb_true_iff in Hx. by rewrite Hx, (IH Ha).
Qed.

Lemma split_join (c : ascii) (l : list string) :
  l <> [] -> Forall (fun x => lacks c x = true) l ->
  Shaper.split c (Shaper.join (String c EmptyString) l) = l.
Proof.
  induction l as [|x l IH]; [done|]. intros _ Hall.
  inversion_clear Hall as [|? ? Hx Hl].
  destruct l as [|y l]; [by apply split_lacks_one|].
  cbn [Shaper.join]. rewrite append_String, append_Empty, split_app by done.
  f_equal. by apply IH.
Qed.

Lemma join_cons (sep x y : string) (l : list string) :
  Shaper.join sep (x :: y :: l) = x +:+ sep +:+ Shaper.join sep (y :: l).
Proof. reflexivity. Qed.

Lemma join_split (c : ascii) (s : string) :
  Shaper.join (String c EmptyString) (Shaper.split c s) = s.
Proof.
  induction s as [|x s IH]; cbn [Shaper.split]; [done|].
  pose proof (split_nonempty c s) as Hnil.
  destruct (Shaper.split c s) as [|h t]; [done|].
  destruct (Ascii.eqb x c) eqn:Hx.
  - apply Ascii.eqb_eq in Hx as ->.
    by rewrite join_cons, append_Empty, append_String, append_Empty, IH.
  - destruct t as [|y l]; [cbn in *; by rewrite IH|].
    rewrite join_cons, append_String. rewrite join_cons in IH. by rewrite IH.
Qed.

Lemma split_two (c : ascii) (q key value : string) :
  Shaper.split c q = [key; value] ->
  q = key +:+ String c EmptyString +:+ value
  /\ lacks c key = true /\ lacks c value = true.
Proof.
  intros Hs. pose proof (join_split c q) as Hj. pose proof (split_lacks c q) as Hl.
  rewrite Hs in Hj, Hl. split; [by rewrite <- Hj|].
  inversion_clear Hl as [|? ? Hk Hv]. inversion_clear Hv as [|? ? Hv' _]. done.
Qed.

(** The loop keeps, in their order and as they were written, the
    components whose key is not volatile. *)
Lemma filter_query_filter (qs res : list string) :
  Shaper.filter_query qs = Return res ->
  Forall two_parts qs /\ res = List.filter keep qs.
Proof.
  revert res. induction qs as [|q qs IH]; intros res; cbn [Shaper.filter_query].
  - intros [= <-]. by split.
  - destruct (Shaper.split "=" q) as [|key [|value [|]]] eqn:Hs; try done.
    destruct (Shaper.filter_query qs) as [res'|] eqn:Hrest; [|done]. cbn.
    destruct (IH res' eq_refl) as [Hall ->]. intros [= <-].
    split; [constructor; [by exists key, value|done]|].
    cbn [List.filter].
    assert (keep q = Shaper.not_volatile key) as -> by (unfold keep; by rewrite Hs).
    destruct (split_two _ _ _ _ Hs) as (<- & _ & _).
    by destruct (Shaper.not_volatile key).
Qed.

Lemma filter_query_fixed (qs : list string) :
  Forall two_parts qs ->
  Shaper.filter_query (List.filter keep qs) = Return (List.filter keep qs).
Proof.
  induction 1 as [|q qs (key & value & Hs) _ IH]; [done|].
  cbn [List.filter].
  assert (keep q = Shaper.not_volatile key) as -> by (unfold keep; by rewrite Hs).
  destruct (Shaper.not_volatile key) eqn:Hkeep; [|done].
  cbn [Shaper.filter_query]. rewrite Hs, IH. cbn. rewrite Hkeep.
  by destruct (split_two _ _ _ _ Hs) as (<- & _ & _).
Qed.

Lemma append_assoc (a b c : string) : (a +:+ b) +:+ c = a +:+ b +:+ c.
Proof. induction a as [|x a IH]; [done|]. by rewrite !append_String, IH. Qed.

Lemma append_Empty_r (a : string) : a +:+ EmptyString = a.
Proof. induction a as [|x a IH]; [done|]. by rewrite append_String, IH. Qed.

Lemma append_not_empty (a b : string) (c : ascii) :
  a +:+ String c b <> EmptyString.
Proof. destruct a; [rewrite append_Empty|rewrite append_String]; discriminate. Qed.

Lemma lacks_join (d : ascii) (sep : string) (l : list string) :
  lacks d sep = true -> Forall (fun x => lacks d x = true) l ->
  lacks d (Shaper.join sep l) = true.
Proof.
  intros Hsep. induction 1 as [|x l Hx Hl IH]; [done|].
  destruct l as [|y l]; [done|].
  by rewrite join_cons, !lacks_app, Hx, Hsep, IH.
Qed.

Lemma urlparse_parts (u : string) :
  lacks "?" (Shaper.prefix (Shaper.urlparse u)) = true
  /\ lacks "#" (Shaper.prefix (Shaper.urlparse u)) = true
  /\ lacks "#" (Shaper.query (Shaper.urlparse u)) = true.
Proof.
  unfold Shaper.urlparse.
  destruct (split_first_parts "#" u) as [Hrest _].
  destruct (Shaper.split_first "#" u) as [rest frag]. cbn in Hrest.
  destruct (split_first_parts "?" rest) as [Hpre _].
  destruct (lacks_split_first "#" "?" rest Hrest) as [Hpre' Hq].
  destruct (Shaper.split_first "?" rest) as [pre q]. cbn in *.
  repeat split; [done|done|]. destruct q as [q|]; [by apply Hq|done].
Qed.

Lemma urlparse_urlunparse (pre q frag : string) :
  lacks "?" pre = true -> lacks "#" pre = true -> lacks "#" q = true ->
  Shaper.urlparse (Shaper.urlunparse
                     {| Shaper.prefix := pre; Shaper.query := q; Shaper.fragment := frag |})
  = {| Shaper.prefix := pre; Shaper.query := q; Shaper.fragment := frag |}.
Proof.
  intros Hpre Hpre' Hq. unfold Shaper.urlunparse, Shaper.urlparse. cbn [Shaper.prefix Shaper.query Shaper.fragment].
  set (Q := if String.eqb q EmptyString then EmptyString else "?" +:+ q).
  assert (HQ : lacks "#" (pre +:+ Q) = true).
  { rewrite lacks_app, Hpre'. subst Q. destruct (String.eqb q EmptyString); [done|].
    rewrite lacks_app. by rewrite Hq. }
  assert (Hsplit : Shaper.split_first "?" (pre +:+ Q) = (pre, if String.eqb q EmptyString then None else Some q)).
  { subst Q. destruct (String.eqb q EmptyString).
    - rewrite append_Empty_r. by apply split_first_lacks.
    - by apply split_first_app. }
  destruct (String.eqb_spec frag EmptyString) as [->|Hfrag].
  - rewrite append_Empty_r, (split_first_lacks _ _ HQ), Hsplit.
    destruct (String.eqb_spec q EmptyString) as [->|_]; done.
  - rewrite <- append_assoc. 
    change ("#" +:+ frag) with (String "#" frag).
    rewrite (split_first_app _ _ _ HQ), Hsplit.
    destruct (String.eqb_spec q EmptyString) as [->|_]; done.
Qed.

(** Where the sanitization returns, every component of the query had a
    key and a value, and the result reads as the same URL with the
    query made of the kept components, in their order and as they were
    written. *)
Lemma clear_query_params_parse (u u' : string) :
  Shaper.clear_query_params u = Return u' ->
  let p := Shaper.urlparse u in
  let kept := List.filter keep (Shaper.split "&" (Shaper.query p)) in
  Forall two_parts (Shaper.split "&" (Shaper.query p))
  /\ u' = Shaper.urlunparse
            {| Shaper.prefix := Shaper.prefix p; Shaper.query := Shaper.join "&" kept;
               Shaper.fragment := Shaper.fragment p |}
  /\ Shaper.urlparse u'
     = {| Shaper.prefix := Shaper.prefix p; Shaper.query := Shaper.join "&" kept;
          Shaper.fragment := Shaper.fragment p |}.
Proof.
  unfold Shaper.clear_query_params.
  destruct (urlparse_parts u) as (Hpre & Hpre' & Hq).
  set (p := Shaper.urlparse u) in *.
  destruct (Shaper.filter_query (Shaper.split "&" (Shaper.query p))) as [res|] eqn:Hres;
    [|done].
  cbn. intros [= <-].
  destruct (filter_query_filter _ _ Hres) as [Htwo ->].
  split; [done|]. split; [done|].
  apply urlparse_urlunparse; [done|done|]. apply lacks_join; [done|].
  eapply incl_Forall; [apply incl_filter|]. by apply lacks_split.
Qed.

(** What a second pass does with a sanitized URL: it raises when the
    first pass left no parameter, and otherwise returns the URL as it
    is. *)
Theorem clear_query_params_second_pass (u u' : string) :
  Shaper.clear_query_params u = Return u' ->
  Shaper.clear_query_params u' =
    if String.eqb (Shaper.query (Shaper.urlparse u')) EmptyString
    then Raise ValueError else Return u'.
Proof.
  intros Hfirst.
  destruct (clear_query_params_parse u u' Hfirst) as (Htwo & Hu' & Hparse).
  set (p := Shaper.urlparse u) in *.
  set (qs := Shaper.split "&" (Shaper.query p)) in *.
  unfold Shaper.clear_query_params. rewrite Hparse.
  cbn [Shaper.prefix Shaper.query Shaper.fragment].
  assert (Hamp : Forall (fun x => lacks "&" x = true) (List.filter keep qs)).
  { eapply incl_Forall; [apply incl_filter|]. apply split_lacks. }
  destruct (List.filter keep qs) as [|x l] eqn:Hl.
  - reflexivity.
  - assert (Hne : String.eqb (Shaper.join "&" (x :: l)) EmptyString = false).
    { assert (Hx : two_parts x).
      { assert (Hin : In x (List.filter keep qs)) by (rewrite Hl; by left).
        apply filter_In in Hin as [Hin _].
        exact (proj1 (List.Forall_forall _ _) Htwo x Hin). }
      destruct Hx as (k & v & Hs). destruct (split_two _ _ _ _ Hs) as (-> & _ & _).
      apply String.eqb_neq. destruct l as [|y l'].
      - apply append_not_empty.
      - rewrite join_cons, append_assoc. apply append_not_empty. }
    rewrite Hne, split_join by done.
    rewrite <- Hl, (filter_query_fixed qs Htwo), Hl. cbn. by rewrite Hu'.
Qed.

(** C7, where the code fails.  A profile picture URL whose only query
    parameter is [ccb] is sanitized to the URL without a query; the
    sanitized URL, sanitized again, raises [ValueError], because the
    empty query splits into one empty component that has no [=]. *)
Theorem clear_url_second_pass_raises :
  Shaper.clear_query_params "https://scontent.xx.fbcdn.net/v/t51/pic.jpg?ccb=1-3"
    = Return "https://scontent.xx.fbcdn.net/v/t51/pic.jpg"
  /\ Shaper.clear_query_params "https://scontent.xx.fbcdn.net/v/t51/pic.jpg"
     = Raise ValueError
  /\ Shaper.clear_url
       {[ "profile_picture_url" := VStr "https://scontent.xx.fbcdn.net/v/t51/pic.jpg?ccb=1-3" ]}
     = Return {[ "profile_picture_url" := VStr "https://scontent.xx.fbcdn.net/v/t51/pic.jpg" ]}
  /\ Shaper.clear_url
       {[ "profile_picture_url" := VStr "https://scontent.xx.fbcdn.net/v/t51/pic.jpg" ]}
     = Raise ValueError.
Proof. repeat split; vm_compute; reflexivity. Qed.

(** Where a parameter stays, the other parameters keep their text and
    their order. *)
Example clear_query_params_keeps_the_rest :
  Shaper.clear_query_params
    "https://video.xx.fbcdn.net/v/clip.mp4?_nc_cat=1&_nc_rid=77ab&oh=5f&ccb=1-3&oe=61#t"
    = Return "https://video.xx.fbcdn.net/v/clip.mp4?_nc_cat=1&oh=5f&oe=61#t".
Proof. vm_compute. reflexivity. Qed.

(** ** The record shaper: metric sets and insight errors *)

(** C8. The metric set follows the item's media type, and it is fixed
    before the fetch: the fetch is asked for this set, its answer is
    what the method returns, and no other answer of the provider
    matters. *)
Theorem metric_set_selected_before_fetch {Insights : Type}
    (get_insights : gmap string value -> list string -> outcome Insights)
    (item : gmap string value) (account_id : value) :
  (get item "media_type" = VStr "VIDEO" ->
     Shaper.media_metrics item = Shaper.MEDIA_METRICS ++ ["video_views"])
  /\ (get item "media_type" = VStr "CAROUSEL_ALBUM" ->
     Shaper.media_metrics item = Shaper.CAROUSEL_ALBUM_METRICS)
  /\ (get item "media_type" <> VStr "VIDEO" ->
     get item "media_type" <> VStr "CAROUSEL_ALBUM" ->
     Shaper.media_metrics item = Shaper.MEDIA_METRICS)
  /\ (forall insights,
       get_insights item (Shaper.media_metrics item) = Return insights ->
       Shaper.MediaInsights_get_insights get_insights item account_id
         = (Return (Some insights), []))
  /\ (forall other : gmap string value -> list string -> outcome Insights,
       other item (Shaper.media_metrics item)
         = get_insights item (Shaper.media_metrics item) ->
       Shaper.MediaInsights_get_insights other item account_id
         = Shaper.MediaInsights_get_insights get_insights item account_id).
Proof.
  split; [|split; [|split; [|split]]].
  - unfold Shaper.media_metrics. by intros ->.
  - unfold Shaper.media_metrics. by intros ->.
  - intros Hv Hc. unfold Shaper.media_metrics, eq_str.
    destruct (get item "media_type") as [| | | |t| |]; try reflexivity.
    destruct (String.eqb_spec t "VIDEO") as [->|_]; [done|].
    destruct (String.eqb_spec t "CAROUSEL_ALBUM") as [->|_]; [done|]. reflexivity.
  - intros insights Hfetch. unfold Shaper.MediaInsights_get_insights. cbv zeta.
    by rewrite Hfetch.
  - intros other Hsame. unfold Shaper.MediaInsights_get_insights. cbv zeta.
    by rewrite Hsame.
Qed.

Lemma metric_set_selected_before_fetch_witness :
  Shaper.media_metrics {[ "media_type" := VStr "VIDEO" ]}
    = ["engagement"; "impressions"; "reach"; "saved"; "video_views"]
  /\ Shaper.media_metrics {[ "media_type" := VStr "CAROUSEL_ALBUM" ]}
     = ["carousel_album_engagement"; "carousel_album_impressions";
        "carousel_album_reach"; "carousel_album_saved"]
  /\ Shaper.media_metrics {[ "media_type" := VStr "IMAGE" ]}
     = ["engagement"; "impressions"; "reach"; "saved"]
  /\ Shaper.MediaInsights_get_insights (fun _ metrics => Return metrics)
       {[ "media_type" := VStr "VIDEO" ]} (VStr "17841400")
     = (Return (Some ["engagement"; "impressions"; "reach"; "saved"; "video_views"]), []).
Proof.
  split; [|split; [|split]].
  - apply (proj1 (metric_set_selected_before_fetch
                    (fun _ metrics => Return metrics)
                    {[ "media_type" := VStr "VIDEO" ]} (VStr "17841400"))).
    reflexivity.
  - apply (proj1 (proj2 (metric_set_selected_before_fetch
                    (fun _ metrics => Return metrics)
                    {[ "media_type" := VStr "CAROUSEL_ALBUM" ]} (VStr "17841400")))).
    reflexivity.
  - apply (proj1 (proj2 (proj2 (metric_set_selected_before_fetch
                    (fun _ metrics => Return metrics)
                    {[ "media_type" := VStr "IMAGE" ]} (VStr "17841400")))));
      discriminate.
  - apply (proj1 (proj2 (proj2 (proj2 (metric_set_selected_before_fetch
                    (fun _ metrics => Return metrics)
                    {[ "media_type" := VStr "VIDEO" ]} (VStr "17841400")))))).
    reflexivity.
Defined.



Section InsightAttempts.
Context {St : Type}.
Variable get_insights :
  gmap string value -> list string -> St -> outcome (list Shaper.insight) * St.




End InsightAttempts.




(** ** Square: request parameters *)

(** C10, where it fails.  An empty mapping is a page token that is not
    [None], and the method returns the parameters with the limit for
    it. *)
Lemma request_params_empty_token :
  Square.request_params 100 (Some ∅) ∅ (Some ∅)
    = Return (Some {[ "limit" := VInt 100 ]}).
Proof. vm_compute. reflexivity. Qed.

(** C10, amended.  For a page token that holds a cursor the method
    returns [None], the value of [dict.update], so no parameter reaches
    the caller.  For a token that is [None] or empty it returns a mapping
    with the limit, and with [begin_time] when the state holds the cursor
    field; and it returns a mapping for such a token only. *)
Theorem request_params_by_token (items_per_page_limit : Z)
    (super_request_params : option (gmap string value))
    (stream_state : gmap string string)
    (next_page_token : option (gmap string value)) :
  (forall token cursor,
      next_page_token = Some token -> token !! "cursor" = Some cursor ->
      Square.request_params items_per_page_limit super_request_params
        stream_state next_page_token = Return None)
  /\ (next_page_token = None \/ next_page_token = Some ∅ ->
      exists params,
        Square.request_params items_per_page_limit super_request_params
          stream_state next_page_token = Return (Some params)
        /\ params !! "limit" = Some (VInt items_per_page_limit)
        /\ forall begin, stream_state !! "created_at" = Some begin ->
                         params !! "begin_time" = Some (VStr begin))
  /\ (forall params,
      Square.request_params items_per_page_limit super_request_params
        stream_state next_page_token = Return (Some params) ->
      next_page_token = None \/ next_page_token = Some ∅).
Proof.
  unfold Square.request_params, Square.cursor_field. split; [|split].
  - intros token cursor -> Hcursor. cbn [Square.token_truthy].
    destruct (Nat.eqb_spec (size token) 0) as [Hsize|_].
    + apply map_size_empty_iff in Hsize. subst token. by rewrite lookup_empty in Hcursor.
    + cbn. unfold getitem. by rewrite Hcursor.
  - intros Hfalsy.
    assert (Square.token_truthy next_page_token = false) as ->
      by (by destruct Hfalsy as [->| ->]).
    eexists. split; [reflexivity|]. split; [by rewrite lookup_insert_eq|].
    intros begin Hbegin. rewrite Hbegin.
    rewrite lookup_insert_ne by done. by rewrite lookup_insert_eq.
  - intros params. destruct next_page_token as [token|]; [|by left].
    cbn [Square.token_truthy].
    destruct (Nat.eqb_spec (size token) 0) as [Hsize|_].
    + apply map_size_empty_iff in Hsize. subst token. by right.
    + cbn. unfold getitem. by destruct (token !! "cursor").
Qed.

Lemma request_params_by_token_witness :
  Square.request_params 100 (Some ∅) {[ "created_at" := "2021-06-14T13:47:56.799Z" ]}
    (Some {[ "cursor" := VStr "dIG6zXlHqz" ]}) = Return None
  /\ exists params,
       Square.request_params 100 (Some ∅) {[ "created_at" := "2021-06-14T13:47:56.799Z" ]}
         None = Return (Some params)
       /\ params !! "limit" = Some (VInt 100)
       /\ forall begin,
            ({[ "created_at" := "2021-06-14T13:47:56.799Z" ]} : gmap string string)
              !! "created_at" = Some begin ->
            params !! "begin_time" = Some (VStr begin).
Proof.
  split.
  - apply (proj1 (request_params_by_token 100 (Some ∅)
                    {[ "created_at" := "2021-06-14T13:47:56.799Z" ]}
                    (Some {[ "cursor" := VStr "dIG6zXlHqz" ]}))
             {[ "cursor" := VStr "dIG6zXlHqz" ]} (VStr "dIG6zXlHqz"));
      reflexivity.
  - apply (proj1 (proj2 (request_params_by_token 100 (Some ∅)
                    {[ "created_at" := "2021-06-14T13:47:56.799Z" ]} None))).
    by left.
Defined.

(** * Further properties of the code *)

(** ** Square: page tokens and the requests built from them *)

(** A token that [next_page_token] returns holds the cursor of the
    response, and nothing else. *)
Lemma next_page_token_Some (response_json : outcome value) (t : gmap string value) :
  SquareStreams.next_page_token response_json = Return (Some t) ->
  exists d c, response_json = Return (VDict d) /\ d !! "cursor" = Some c
              /\ truthy c = true /\ t = {[ "cursor" := c ]}.
Proof.
  unfold SquareStreams.next_page_token.
  destruct response_json as [body|e]; [cbn|done].
  destruct body as [| | | | | |d]; try done.
  destruct (d !! "cursor") as [c|] eqn:Hc; cbn; [|done].
  destruct (truthy c) eqn:Ht; [|done].
  intros [= <-]. by exists d, c.
Qed.

Lemma token_truthy_singleton (c : value) :
  Square.token_truthy (Some {[ "cursor" := c ]}) = true.
Proof. cbn. by rewrite map_size_singleton. Qed.

Lemma update_cursor_singleton (payload : gmap string value) (c : value) :
  SquareStreams.update_cursor payload (Some {[ "cursor" := c ]})
  = Return (<["cursor" := c]> payload).
Proof.
  unfold SquareStreams.update_cursor. rewrite token_truthy_singleton.
  cbn. unfold getitem. by rewrite lookup_singleton_eq.
Qed.

Lemma update_cursor_falsy (payload : gmap string value)
    (token : option (gmap string value)) :
  token = None \/ token = Some ∅ ->
  SquareStreams.update_cursor payload token = Return payload.
Proof. by intros [->| ->]. Qed.

(** The parameters of [Payments] and [Refunds].  For the first page
    they hold the sort order, the limit and, when the state has the
    cursor field, the begin time.  For a token that [next_page_token]
    returned they are the sort order alone: the cursor of the token is
    not among them. *)
Theorem payments_request_params_pages (super_result : option (gmap string value))
    (stream_state : gmap string string) :
  (forall response_json t,
      SquareStreams.next_page_token response_json = Return (Some t) ->
      SquareStreams.Payments_request_params super_result stream_state (Some t)
      = Return {[ "sort_order" := VStr "ASC" ]})
  /\ (forall token,
        token = None \/ token = Some ∅ ->
        exists params,
          SquareStreams.Payments_request_params super_result stream_state token
          = Return params
          /\ params !! "sort_order" = Some (VStr "ASC")
          /\ params !! "limit" = Some (VInt 100)
          /\ params !! "cursor" = Square.payload_or_empty super_result !! "cursor"
          /\ forall begin, stream_state !! "created_at" = Some begin ->
                           params !! "begin_time" = Some (VStr begin)).
Proof.
  split.
  - intros response_json t (d & c & _ & _ & _ & ->)%next_page_token_Some.
    unfold SquareStreams.Payments_request_params, Square.request_params.
    rewrite token_truthy_singleton. cbn. unfold getitem.
    by rewrite lookup_singleton_eq.
  - intros token Hfalsy.
    unfold SquareStreams.Payments_request_params, Square.request_params,
      Square.cursor_field.
    assert (Square.token_truthy token = false) as -> by (by destruct Hfalsy as [->| ->]).
    cbn.
    set (p := match stream_state !! "created_at" with
              | Some begin => <["begin_time" := VStr begin]>
                                (Square.payload_or_empty super_result)
              | None => Square.payload_or_empty super_result
              end).
    destruct (Nat.eqb_spec (size (<["limit" := VInt 100]> p)) 0) as [Hsize|_].
    { apply map_size_empty_iff in Hsize.
      apply (f_equal (fun m : gmap string value => m !! "limit")) in Hsize.
      by rewrite lookup_insert_eq, lookup_empty in Hsize. }
    eexists. split; [reflexivity|]. subst p.
    split; [by rewrite lookup_insert_eq|].
    split; [by rewrite lookup_insert_ne, lookup_insert_eq by done|].
    split.
    + rewrite !lookup_insert_ne by done.
      destruct (stream_state !! "created_at"); [by rewrite lookup_insert_ne|done].
    + intros begin ->. by rewrite !lookup_insert_ne, lookup_insert_eq by done.
Qed.

Lemma payments_request_params_pages_witness :
  SquareStreams.Payments_request_params (Some ∅)
    {[ "created_at" := "2021-06-14T13:47:56.799Z" ]}
    (Some {[ "cursor" := VStr "dIG6zXlHqz" ]})
  = Return {[ "sort_order" := VStr "ASC" ]}
  /\ exists params,
       SquareStreams.Payments_request_params (Some ∅)
         {[ "created_at" := "2021-06-14T13:47:56.799Z" ]} None = Return params
       /\ params !! "sort_order" = Some (VStr "ASC")
       /\ params !! "limit" = Some (VInt 100)
       /\ params !! "cursor" = Square.payload_or_empty (Some ∅) !! "cursor"
       /\ forall begin,
            ({[ "created_at" := "2021-06-14T13:47:56.799Z" ]} : gmap string string)
              !! "created_at" = Some begin ->
            params !! "begin_time" = Some (VStr begin).
Proof.
  split.
  - apply (proj1 (payments_request_params_pages (Some ∅)
                    {[ "created_at" := "2021-06-14T13:47:56.799Z" ]})
             (Return (VDict {[ "cursor" := VStr "dIG6zXlHqz" ]}))).
    reflexivity.
  - apply (proj2 (payments_request_params_pages (Some ∅)
                    {[ "created_at" := "2021-06-14T13:47:56.799Z" ]})).
    by left.
Defined.

(** The builders that update and then return the payload.  For a token
    that [next_page_token] returned, each of them returns a mapping with
    the cursor of the token; [TeamMemberWages] and [TeamMembers] add their
    limit and [Customers] its sort order and sort field. *)
Theorem sibling_requests_carry_the_cursor (super_result : option (gmap string value))
    (response_json : outcome value) (t : gmap string value) :
  SquareStreams.next_page_token response_json = Return (Some t) ->
  exists c,
    t !! "cursor" = Some c
    /\ (exists p, SquareStreams.TeamMemberWages_request_params super_result (Some t)
                  = Return p
                  /\ p !! "cursor" = Some c /\ p !! "limit" = Some (VInt 200))
    /\ (exists p, SquareStreams.Customers_request_params super_result (Some t)
                  = Return p
                  /\ p !! "cursor" = Some c
                  /\ p !! "sort_order" = Some (VStr "ASC")
                  /\ p !! "sort_field" = Some (VStr "CREATED_AT"))
    /\ (exists p, SquareStreams.Shifts_request_body_json super_result (Some t)
                  = Return p /\ p !! "cursor" = Some c)
    /\ (exists p, SquareStreams.TeamMembers_request_body_json super_result (Some t)
                  = Return p
                  /\ p !! "cursor" = Some c /\ p !! "limit" = Some (VInt 100)).
Proof.
  intros (d & c & _ & _ & _ & ->)%next_page_token_Some.
  exists c. split; [by rewrite lookup_singleton_eq|].
  unfold SquareStreams.TeamMemberWages_request_params,
    SquareStreams.Customers_request_params, SquareStreams.Shifts_request_body_json,
    SquareStreams.TeamMembers_request_body_json.
  rewrite update_cursor_singleton. cbn.
  repeat split; eexists; (split; [reflexivity|]);
    repeat split; by rewrite ?lookup_insert_ne, lookup_insert_eq by done.
Qed.

Lemma sibling_requests_carry_the_cursor_witness :
  exists c,
    ({[ "cursor" := VStr "dIG6zXlHqz" ]} : gmap string value) !! "cursor" = Some c
    /\ (exists p, SquareStreams.TeamMemberWages_request_params (Some ∅)
                    (Some {[ "cursor" := VStr "dIG6zXlHqz" ]}) = Return p
                  /\ p !! "cursor" = Some c /\ p !! "limit" = Some (VInt 200))
    /\ (exists p, SquareStreams.Customers_request_params (Some ∅)
                    (Some {[ "cursor" := VStr "dIG6zXlHqz" ]}) = Return p
                  /\ p !! "cursor" = Some c
                  /\ p !! "sort_order" = Some (VStr "ASC")
                  /\ p !! "sort_field" = Some (VStr "CREATED_AT"))
    /\ (exists p, SquareStreams.Shifts_request_body_json (Some ∅)
                    (Some {[ "cursor" := VStr "dIG6zXlHqz" ]}) = Return p
                  /\ p !! "cursor" = Some c)
    /\ (exists p, SquareStreams.TeamMembers_request_body_json (Some ∅)
                    (Some {[ "cursor" := VStr "dIG6zXlHqz" ]}) = Return p
                  /\ p !! "cursor" = Some c /\ p !! "limit" = Some (VInt 100)).
Proof.
  apply (sibling_requests_carry_the_cursor (Some ∅)
           (Return (VDict (<["cursor" := VStr "dIG6zXlHqz"]>
                             {[ "payments" := VList [] ]})))).
  reflexivity.
Defined.

(** A token that is true and has no cursor entry stops every request
    builder with [KeyError] at the cursor.  [Orders.request_body_json]
    reads the locations before it reads the token: there an error of the
    [Locations] stream, or a location without an id, comes first. *)
Theorem token_without_cursor_raises (super_result : option (gmap string value))
    (stream_state : gmap string string) (t : gmap string value) :
  t <> ∅ -> t !! "cursor" = None ->
  SquareStreams.TeamMemberWages_request_params super_result (Some t)
    = Raise (KeyError (VStr "cursor"))
  /\ SquareStreams.Customers_request_params super_result (Some t)
     = Raise (KeyError (VStr "cursor"))
  /\ SquareStreams.Shifts_request_body_json super_result (Some t)
     = Raise (KeyError (VStr "cursor"))
  /\ SquareStreams.TeamMembers_request_body_json super_result (Some t)
     = Raise (KeyError (VStr "cursor"))
  /\ SquareStreams.Payments_request_params super_result stream_state (Some t)
     = Raise (KeyError (VStr "cursor"))
  /\ (forall deleted object_type,
        SquareStreams.typed_request_body_json super_result object_type deleted
          stream_state (Some t) = Raise (KeyError (VStr "cursor")))
  /\ (forall records,
        SquareStreams.Orders_request_body_json super_result (Return records) (Some t)
        = match SquareStreams.collect_location_ids records with
          | Return _ => Raise (KeyError (VStr "cursor"))
          | Raise e => Raise e
          end)
  /\ (forall e,
        SquareStreams.Orders_request_body_json super_result (Raise e) (Some t)
        = Raise e).
Proof.
  intros Hne Hcursor.
  assert (Htruthy : Square.token_truthy (Some t) = true).
  { cbn. destruct (Nat.eqb_spec (size t) 0) as [Hsize|_]; [|done].
    by apply map_size_empty_iff in Hsize. }
  assert (Hupdate : forall payload,
             SquareStreams.update_cursor payload (Some t)
             = Raise (KeyError (VStr "cursor"))).
  { intros payload. unfold SquareStreams.update_cursor. rewrite Htruthy.
    cbn. unfold getitem. by rewrite Hcursor. }
  unfold SquareStreams.TeamMemberWages_request_params,
    SquareStreams.Customers_request_params, SquareStreams.Shifts_request_body_json,
    SquareStreams.TeamMembers_request_body_json,
    SquareStreams.typed_request_body_json,
    SquareStreams.IncrementalCatalog_request_body_json,
    SquareStreams.Catalog_request_body_json,
    SquareStreams.Payments_request_params, Square.request_params.
  rewrite !Hupdate, Htruthy. cbn. unfold getitem. rewrite Hcursor.
  repeat split.
  - intros deleted object_type. by rewrite Hupdate.
  - intros records. unfold SquareStreams.Orders_request_body_json. cbn.
    destruct (SquareStreams.collect_location_ids records) as [ids|e]; [cbn|done].
    by rewrite Hupdate.
Qed.

Lemma token_without_cursor_raises_witness :
  SquareStreams.TeamMemberWages_request_params (Some ∅) (Some {[ "page" := VInt 2 ]})
    = Raise (KeyError (VStr "cursor"))
  /\ SquareStreams.Customers_request_params (Some ∅) (Some {[ "page" := VInt 2 ]})
     = Raise (KeyError (VStr "cursor"))
  /\ SquareStreams.Shifts_request_body_json (Some ∅) (Some {[ "page" := VInt 2 ]})
     = Raise (KeyError (VStr "cursor"))
  /\ SquareStreams.TeamMembers_request_body_json (Some ∅) (Some {[ "page" := VInt 2 ]})
     = Raise (KeyError (VStr "cursor"))
  /\ SquareStreams.Payments_request_params (Some ∅) ∅ (Some {[ "page" := VInt 2 ]})
     = Raise (KeyError (VStr "cursor"))
  /\ (forall deleted object_type,
        SquareStreams.typed_request_body_json (Some ∅) object_type deleted
          ∅ (Some {[ "page" := VInt 2 ]}) = Raise (KeyError (VStr "cursor")))
  /\ (forall records,
        SquareStreams.Orders_request_body_json (Some ∅) (Return records)
          (Some {[ "page" := VInt 2 ]})
        = match SquareStreams.collect_location_ids records with
          | Return _ => Raise (KeyError (VStr "cursor"))
          | Raise e => Raise e
          end)
  /\ (forall e,
        SquareStreams.Orders_request_body_json (Some ∅) (Raise e)
          (Some {[ "page" := VInt 2 ]})
        = Raise e).
Proof.
  apply (token_without_cursor_raises (Some ∅) ∅ {[ "page" := VInt 2 ]}).
  - intros H. apply (f_equal (fun m : gmap string value => m !! "page")) in H.
    vm_compute in H. discriminate H.
  - reflexivity.
Defined.

(** The body of a catalog search, for every call that returns: the
    object type of the stream, the two flags and the limit of 1000 are in
    it whatever the parent supplied; the begin time is the state's
    ["updated_at"] when the state has one; and, unlike the parameters of
    [Payments], the cursor of a true token is in it. *)
Theorem catalog_body_fields (super_result : option (gmap string value))
    (object_type : string) (include_deleted_objects : bool)
    (stream_state : gmap string string)
    (next_page_token : option (gmap string value)) (body : gmap string value) :
  SquareStreams.typed_request_body_json super_result object_type
    include_deleted_objects stream_state next_page_token = Return body ->
  body !! "object_types" = Some (VList [VStr object_type])
  /\ body !! "include_deleted_objects" = Some (VBool include_deleted_objects)
  /\ body !! "include_related_objects" = Some (VBool false)
  /\ body !! "limit" = Some (VInt 1000)
  /\ (forall begin, stream_state !! "updated_at" = Some begin ->
                    body !! "begin_time" = Some (VStr begin))
  /\ (Square.token_truthy next_page_token = true ->
      body !! "cursor" = default ∅ next_page_token !! "cursor"
      /\ is_Some (body !! "cursor"))
  /\ (Square.token_truthy next_page_token = false ->
      body !! "cursor" = Square.payload_or_empty super_result !! "cursor").
Proof.
  unfold SquareStreams.typed_request_body_json,
    SquareStreams.IncrementalCatalog_request_body_json,
    SquareStreams.Catalog_request_body_json, SquareStreams.update_cursor.
  destruct (Square.token_truthy next_page_token) eqn:Htoken.
  - unfold getitem.
    destruct (default ∅ next_page_token !! "cursor") as [c|] eqn:Hc; [|done].
    cbn. intros [= <-].
    assert (Hbegin : forall m : gmap string value,
               (forall k, k <> "begin_time" ->
                  match stream_state !! "updated_at" with
                  | Some begin => <["begin_time" := VStr begin]> m
                  | None => m
                  end !! k = m !! k)).
    { intros m k Hk. destruct (stream_state !! "updated_at"); [|done].
      by rewrite lookup_insert_ne. }
    repeat split; try done.
    + by rewrite lookup_insert_eq.
    + by rewrite lookup_insert_ne, Hbegin, !lookup_insert_ne, lookup_insert_eq by done.
    + by rewrite lookup_insert_ne, Hbegin, !lookup_insert_ne, lookup_insert_eq by done.
    + by rewrite lookup_insert_ne, Hbegin, !lookup_insert_ne, lookup_insert_eq by done.
    + intros begin ->. by rewrite lookup_insert_ne, lookup_insert_eq by done.
    + by rewrite lookup_insert_ne, Hbegin, lookup_insert_eq by done.
    + by rewrite lookup_insert_ne, Hbegin, lookup_insert_eq by done.
  - cbn. intros [= <-].
    assert (Hbegin : forall m : gmap string value,
               (forall k, k <> "begin_time" ->
                  match stream_state !! "updated_at" with
                  | Some begin => <["begin_time" := VStr begin]> m
                  | None => m
                  end !! k = m !! k)).
    { intros m k Hk. destruct (stream_state !! "updated_at"); [|done].
      by rewrite lookup_insert_ne. }
    repeat split; try done.
    + by rewrite lookup_insert_eq.
    + by rewrite lookup_insert_ne, Hbegin, !lookup_insert_ne, lookup_insert_eq by done.
    + by rewrite lookup_insert_ne, Hbegin, !lookup_insert_ne, lookup_insert_eq by done.
    + by rewrite lookup_insert_ne, Hbegin, lookup_insert_eq by done.
    + intros begin ->. by rewrite lookup_insert_ne, lookup_insert_eq by done.
    + by rewrite lookup_insert_ne, Hbegin, !lookup_insert_ne by done.
Qed.

Lemma catalog_body_fields_witness :
  let body : gmap string value :=
    <["object_types" := VList [VStr "ITEM"]]>
      (<["begin_time" := VStr "2021-06-14T13:47:56.799Z"]>
         (<["cursor" := VStr "dIG6zXlHqz"]>
            (<["limit" := VInt 1000]>
               (<["include_related_objects" := VBool false]>
                  {[ "include_deleted_objects" := VBool true ]})))) in
  SquareStreams.typed_request_body_json (Some ∅) "ITEM" true
    {[ "updated_at" := "2021-06-14T13:47:56.799Z" ]}
    (Some {[ "cursor" := VStr "dIG6zXlHqz" ]}) = Return body
  /\ body !! "object_types" = Some (VList [VStr "ITEM"])
  /\ body !! "limit" = Some (VInt 1000)
  /\ body !! "begin_time" = Some (VStr "2021-06-14T13:47:56.799Z")
  /\ is_Some (body !! "cursor").
Proof.
  intros body.
  assert (Hrun : SquareStreams.typed_request_body_json (Some ∅) "ITEM" true
                   {[ "updated_at" := "2021-06-14T13:47:56.799Z" ]}
                   (Some {[ "cursor" := VStr "dIG6zXlHqz" ]}) = Return body)
    by (vm_compute; reflexivity).
  split; [exact Hrun|].
  destruct (catalog_body_fields (Some ∅) "ITEM" true
              {[ "updated_at" := "2021-06-14T13:47:56.799Z" ]}
              (Some {[ "cursor" := VStr "dIG6zXlHqz" ]}) body Hrun)
    as (Htypes & _ & _ & Hlimit & Hbegin & Hcursor & _).
  split; [exact Htypes|]. split; [exact Hlimit|].
  split; [apply Hbegin; vm_compute; reflexivity|].
  apply Hcursor. vm_compute. reflexivity.
Defined.

(** ** Square: HTTP errors *)

(** [_send_request] on an HTTP error of the parent.  With an empty body
    the error is raised again.  With a body that reads as a JSON object
    the error is never raised again: the method raises [SquareException]
    with the errors of the object when it has this entry, and it returns
    [None] when it has not. *)
Theorem send_request_http_error {Response : Type}
    (json_loads : string -> outcome value) (body : string) :
  (body = EmptyString ->
     SquareStreams._send_request (Response := Response) json_loads
       (SquareStreams.HTTPError body) = SquareStreams.SameHTTPError body)
  /\ (body <> EmptyString ->
      (forall content,
          SquareStreams._send_request (Response := Response) json_loads
            (SquareStreams.HTTPError body) <> SquareStreams.SameHTTPError content)
      /\ (forall d errors,
            json_loads body = Return (VDict d) -> d !! "errors" = Some errors ->
            SquareStreams._send_request (Response := Response) json_loads
              (SquareStreams.HTTPError body) = SquareStreams.SquareException errors)
      /\ (forall d,
            json_loads body = Return (VDict d) -> d !! "errors" = None ->
            SquareStreams._send_request (Response := Response) json_loads
              (SquareStreams.HTTPError body) = SquareStreams.Returned None)).
Proof.
  split.
  - by intros ->.
  - intros Hne. unfold SquareStreams._send_request.
    destruct (String.eqb_spec body EmptyString) as [->|_]; [done|]. cbn [negb].
    split; [|split].
    + intros content. destruct (json_loads body) as [v|e]; [|done].
      destruct (truthy v); [|done].
      destruct (SquareStreams.has_errors v) as [[|]|e]; try done.
      by destruct (SquareStreams.errors_of v).
    + intros d errors -> Herrors.
      assert (truthy (VDict d) = true) as ->.
      { cbn. destruct (Nat.eqb_spec (size d) 0) as [Hsize|_]; [|done].
        apply map_size_empty_iff in Hsize. subst d. by rewrite lookup_empty in Herrors. }
      cbn. rewrite bool_decide_eq_true_2 by (by rewrite Herrors).
      unfold getitem. by rewrite Herrors.
    + intros d -> Herrors. destruct (truthy (VDict d)); [|done].
      cbn. rewrite bool_decide_eq_false_2; [done|].
      rewrite Herrors. by intros [? [=]].
Qed.

Lemma send_request_http_error_witness :
  SquareStreams._send_request (Response := string) Json.json_loads
    (SquareStreams.HTTPError EmptyString) = SquareStreams.SameHTTPError EmptyString
  /\ SquareStreams._send_request (Response := string) Json.json_loads
       (SquareStreams.HTTPError Samples.error_body)
     = SquareStreams.SquareException
         (VList [VDict {[ "category" := VStr "AUTHENTICATION_ERROR" ]}])
  /\ SquareStreams._send_request (Response := string) Json.json_loads
       (SquareStreams.HTTPError Samples.plain_body) = SquareStreams.Returned None.
Proof.
  split; [|split].
  - by apply (proj1 (send_request_http_error Json.json_loads EmptyString)).
  - apply (proj1 (proj2 (proj2 (send_request_http_error Json.json_loads
                                  Samples.error_body) ltac:(discriminate)))
             (<["errors" := VList [VDict {[ "category" := VStr "AUTHENTICATION_ERROR" ]}]]> ∅));
      vm_compute; reflexivity.
  - apply (proj2 (proj2 (proj2 (send_request_http_error Json.json_loads
                                  Samples.plain_body) ltac:(discriminate)))
             {[ "message" := VStr "Bad Gateway" ]});
      vm_compute; reflexivity.
Defined.

(** ** Square: the body of an order search *)

(** The ids [collect_location_ids] gathers are the ["id"] entries of
    the records, in their order. *)
Lemma collect_location_ids_Return (records : list (gmap string value)) (ids : list value) :
  SquareStreams.collect_location_ids records = Return ids <->
  Forall2 (fun (record : gmap string value) id => record !! "id" = Some id) records ids.
Proof.
  revert ids. induction records as [|record records IH]; intros ids; cbn.
  - split; [intros [= <-]; constructor | by inversion 1].
  - unfold getitem. destruct (record !! "id") as [id|] eqn:Hid; cbn.
    + destruct (SquareStreams.collect_location_ids records) as [rest|e]; cbn.
      * split.
        -- intros [= <-]. constructor; [done|]. by apply IH.
        -- inversion 1 as [|? ? ? ids' Hid' Hrest]; subst.
           apply IH in Hrest. injection Hrest as <-. congruence.
      * split; [done|]. inversion 1 as [|? ? ? ids' Hid' Hrest]; subst.
        by apply IH in Hrest.
    + split; [done|]. inversion 1; congruence.
Qed.

(** The body of an order search carries the ids of all locations, in
    the order the [Locations] stream gave them, and the limit of 500;
    with no location there is no [location_ids] entry of its own. *)
Theorem orders_body_location_ids (super_result : option (gmap string value))
    (records : list (gmap string value)) (ids : list value)
    (next_page_token : option (gmap string value)) :
  Forall2 (fun (record : gmap string value) id => record !! "id" = Some id) records ids ->
  next_page_token = None \/ next_page_token = Some ∅
    \/ is_Some (default ∅ next_page_token !! "cursor") ->
  exists body,
    SquareStreams.Orders_request_body_json super_result (Return records)
      next_page_token = Return body
    /\ body !! "limit" = Some (VInt 500)
    /\ (records <> [] -> body !! "location_ids" = Some (VList ids))
    /\ (records = [] ->
        body !! "location_ids" = Square.payload_or_empty super_result !! "location_ids").
Proof.
  intros Hids%collect_location_ids_Return Htoken.
  unfold SquareStreams.Orders_request_body_json. cbn. rewrite Hids. cbn.
  set (payload := match ids with
                  | [] => Square.payload_or_empty super_result
                  | _ => <["location_ids" := VList ids]>
                           (Square.payload_or_empty super_result)
                  end).
  assert (Hupdate : exists p,
             SquareStreams.update_cursor payload next_page_token = Return p
             /\ p !! "location_ids" = payload !! "location_ids").
  { destruct Htoken as [->|[->|[c Hc]]]; [by exists payload|by exists payload|].
    unfold SquareStreams.update_cursor.
    destruct (Square.token_truthy next_page_token); [|by exists payload].
    cbn. unfold getitem. rewrite Hc. cbn. eexists. split; [reflexivity|].
    by rewrite lookup_insert_ne. }
  destruct Hupdate as (p & -> & Hp). cbn. eexists. split; [reflexivity|].
  split; [by rewrite lookup_insert_eq|].
  rewrite lookup_insert_ne, Hp by done. subst payload.
  apply collect_location_ids_Return in Hids.
  split.
  - intros Hne. destruct Hids; [done|]. by rewrite lookup_insert_eq.
  - intros ->. by inversion Hids.
Qed.

Lemma orders_body_location_ids_witness :
  exists body,
    SquareStreams.Orders_request_body_json (Some ∅)
      (Return [Samples.location "L1"; Samples.location "L2"]) None = Return body
    /\ body !! "limit" = Some (VInt 500)
    /\ ([Samples.location "L1"; Samples.location "L2"] <> [] ->
        body !! "location_ids" = Some (VList [VStr "L1"; VStr "L2"]))
    /\ ([Samples.location "L1"; Samples.location "L2"] = [] ->
        body !! "location_ids" = Square.payload_or_empty (Some ∅) !! "location_ids").
Proof.
  apply (orders_body_location_ids (Some ∅)
           [Samples.location "L1"; Samples.location "L2"] [VStr "L1"; VStr "L2"] None).
  - repeat constructor.
  - by left.
Defined.

(** ** The rate governor: which header and which field count *)

Lemma or_header_l (text : string) (b : option string) :
  text <> EmptyString -> RateGovernor.or_header (Some text) b = Some text.
Proof.
  intros Hne. unfold RateGovernor.or_header. cbn.
  by destruct (String.eqb_spec text EmptyString).
Qed.

Lemma or_header_r (a b : option string) :
  RateGovernor.header_truthy a = false -> RateGovernor.or_header a b = b.
Proof. intros Ha. unfold RateGovernor.or_header. by rewrite Ha. Qed.

Lemma find_usage_header_single (name text : string) :
  name = "x-business-use-case-usage" \/ name = "x-app-usage"
    \/ name = "x-ad-account-usage" ->
  text <> EmptyString ->
  RateGovernor.find_usage_header {[ name := text ]} = Some text.
Proof.
  intros Hname Hne. unfold RateGovernor.find_usage_header.
  destruct Hname as [->|[->| ->]].
  - by rewrite lookup_singleton_eq, !or_header_l.
  - rewrite (lookup_singleton_ne "x-app-usage") by done.
    by rewrite lookup_singleton_eq, (or_header_r None), or_header_l.
  - rewrite !(lookup_singleton_ne "x-ad-account-usage") by done.
    by rewrite lookup_singleton_eq, !(or_header_r None).
Qed.

(** The governor reads one header: the business-use-case header when
    it is there and not empty, else the app header, else the ad-account
    header.  The headers after the one it reads do not matter, and an
    empty header counts as absent. *)
Theorem usage_header_precedence (json_loads : string -> outcome value)
    (headers : gmap string string) (text : string) :
  text <> EmptyString ->
  (headers !! "x-business-use-case-usage" = Some text ->
     RateGovernor.parse_call_rate_header json_loads headers
     = RateGovernor.parse_call_rate_header json_loads
         {[ "x-business-use-case-usage" := text ]})
  /\ (RateGovernor.header_truthy (headers !! "x-business-use-case-usage") = false ->
      headers !! "x-app-usage" = Some text ->
      RateGovernor.parse_call_rate_header json_loads headers
      = RateGovernor.parse_call_rate_header json_loads {[ "x-app-usage" := text ]})
  /\ (RateGovernor.header_truthy (headers !! "x-business-use-case-usage") = false ->
      RateGovernor.header_truthy (headers !! "x-app-usage") = false ->
      headers !! "x-ad-account-usage" = Some text ->
      RateGovernor.parse_call_rate_header json_loads headers
      = RateGovernor.parse_call_rate_header json_loads
          {[ "x-ad-account-usage" := text ]}).
Proof.
  intros Hne. unfold RateGovernor.parse_call_rate_header.
  split; [|split].
  - intros Hb. rewrite (find_usage_header_single _ _ (or_introl eq_refl) Hne).
    unfold RateGovernor.find_usage_header. by rewrite Hb, !or_header_l.
  - intros Hb Ha.
    rewrite (find_usage_header_single _ _ (or_intror (or_introl eq_refl)) Hne).
    unfold RateGovernor.find_usage_header.
    by rewrite (or_header_r _ _ Hb), Ha, or_header_l.
  - intros Hb Ha Hc.
    rewrite (find_usage_header_single _ _ (or_intror (or_intror eq_refl)) Hne).
    unfold RateGovernor.find_usage_header.
    by rewrite (or_header_r _ _ Hb), (or_header_r _ _ Ha), Hc.
Qed.

Lemma usage_header_precedence_witness :
  RateGovernor.parse_call_rate_header Json.json_loads
    (<["x-app-usage" := Samples.account_usage_text]>
       (<["x-business-use-case-usage" := Fixtures.usage_text]>
          {[ "x-ad-account-usage" := "not json" ]}))
  = RateGovernor.parse_call_rate_header Json.json_loads
      {[ "x-business-use-case-usage" := Fixtures.usage_text ]}
  /\ RateGovernor.parse_call_rate_header Json.json_loads
       (<["x-app-usage" := Samples.account_usage_text]>
          (<["x-business-use-case-usage" := EmptyString]>
             {[ "x-ad-account-usage" := "not json" ]}))
     = RateGovernor.parse_call_rate_header Json.json_loads
         {[ "x-app-usage" := Samples.account_usage_text ]}.
Proof.
  split.
  - apply (proj1 (usage_header_precedence Json.json_loads _ Fixtures.usage_text
                    ltac:(discriminate))).
    reflexivity.
  - apply (proj1 (proj2 (usage_header_precedence Json.json_loads _
                           Samples.account_usage_text ltac:(discriminate))));
      reflexivity.
Defined.

(** What the governor takes from a usage header that reads as a JSON
    object whose utilization entries are no floats and whose estimated
    time, where it is present, is a whole number of minutes in the range
    of the pause: as utilization the ["call_count"] when it is true, else
    the ["acc_id_util_pct"] when it is true, else zero; as pause the
    ["estimated_time_to_regain_access"] in minutes, zero when the entry is
    missing. *)
Theorem usage_fields_precedence (json_loads : string -> outcome value)
    (headers : gmap string string) (text : string) (usage : gmap string value)
    (m : Z) :
  RateGovernor.find_usage_header headers = Some text -> text <> EmptyString ->
  json_loads text = Return (VDict usage) ->
  no_float (get usage "call_count") -> no_float (get usage "acc_id_util_pct") ->
  default (VInt 0) (usage !! "estimated_time_to_regain_access") = VInt m ->
  pause_in_range m ->
  RateGovernor.parse_call_rate_header json_loads headers
  = Return (if truthy (get usage "call_count") then get usage "call_count"
            else if truthy (get usage "acc_id_util_pct")
                 then get usage "acc_id_util_pct" else VInt 0,
            RateGovernor.Minutes m 0)
  /\ (usage !! "estimated_time_to_regain_access" = None -> m = 0).
Proof.
  intros Hfind Hne Hloads _ _ Hpause _.
  unfold RateGovernor.parse_call_rate_header. rewrite Hfind.
  cbn [RateGovernor.header_truthy].
  destruct (String.eqb_spec text EmptyString) as [->|_]; [done|]. cbn [negb].
  rewrite Hloads. cbn. unfold get. split.
  - destruct (truthy (default VNone (usage !! "call_count"))); cbn;
      rewrite Hpause; cbn; [done|].
    by destruct (truthy (default VNone (usage !! "acc_id_util_pct"))).
  - intros Hnone. rewrite Hnone in Hpause. cbn in Hpause. by injection Hpause as <-.
Qed.

Lemma usage_fields_precedence_witness :
  RateGovernor.parse_call_rate_header Json.json_loads
    {[ "x-ad-account-usage" := Samples.account_usage_text ]}
  = Return (VInt 97, RateGovernor.Minutes 0 0).
Proof.
  assert (Hloads : Json.json_loads Samples.account_usage_text
                   = Return (VDict {[ "acc_id_util_pct" := VInt 97 ]}))
    by (vm_compute; reflexivity).
  destruct (usage_fields_precedence Json.json_loads
              {[ "x-ad-account-usage" := Samples.account_usage_text ]}
              Samples.account_usage_text
              {[ "acc_id_util_pct" := VInt 97 ]} 0) as [Hparse _];
    [vm_compute; reflexivity|discriminate|exact Hloads|intros f; discriminate
    |intros f; discriminate|reflexivity|unfold pause_in_range; lia|].
  exact Hparse.
Defined.

(** ** The rate governor: when it pauses *)

(** For a whole-number utilization [c] and a pause of [m] whole minutes
    in the range of the pause: the governor does nothing when [c] is at
    most 90 and [m] is zero; it warns and sleeps [60 * m] seconds when [c]
    is above 90 or [m] is positive, so above the threshold without an
    estimated time it sleeps zero seconds; and a negative [m] stops it
    with the [ValueError] of [sleep]. *)
Theorem governor_pause (json_loads : string -> outcome value)
    (headers : gmap string string) (c m : Z) :
  RateGovernor.parse_call_rate_header json_loads headers
    = Return (VInt c, RateGovernor.Minutes m 0) ->
  pause_in_range m ->
  (c <= 90 -> m = 0 ->
     RateGovernor.handle_call_rate_limit json_loads headers = Return [])
  /\ (90 < c \/ 0 < m -> 0 <= m ->
      RateGovernor.handle_call_rate_limit json_loads headers
      = Return [RateGovernor.Warn (VInt c) (RateGovernor.Minutes m 0);
                RateGovernor.Sleep (60 * m, 0)])
  /\ (m < 0 ->
      RateGovernor.handle_call_rate_limit json_loads headers = Raise ValueError).
Proof.
  intros Hparse _. unfold RateGovernor.handle_call_rate_limit. rewrite Hparse.
  cbn. unfold RateGovernor.call_rate_threshold, RateGovernor.sleep. cbn.
  rewrite Z.gtb_ltb. split; [|split].
  - intros Hc ->. cbn. destruct (Z.ltb_spec 90 c); [lia|done].
  - intros Hover Hm.
    assert ((90 <? c) || negb (m =? 0) = true) as ->.
    { destruct (Z.ltb_spec 90 c), (Z.eqb_spec m 0); cbn; try done. exfalso. lia. }
    replace (m * 60) with (60 * m) by lia.
    destruct (Z.ltb_spec (60 * m) 0); [lia|done].
  - intros Hm.
    assert ((90 <? c) || negb (m =? 0) = true) as ->.
    { destruct (Z.eqb_spec m 0); [lia|]. by rewrite orb_true_r. }
    destruct (Z.ltb_spec (m * 60) 0); [done|lia].
Qed.

Lemma governor_pause_witness :
  RateGovernor.handle_call_rate_limit Json.json_loads
    {[ "x-ad-account-usage" := Samples.account_usage_text ]}
  = Return [RateGovernor.Warn (VInt 97) (RateGovernor.Minutes 0 0);
            RateGovernor.Sleep (60 * 0, 0)].
Proof.
  destruct (governor_pause Json.json_loads
              {[ "x-ad-account-usage" := Samples.account_usage_text ]} 97 0)
    as (_ & Hpause & _); [vm_compute; reflexivity|unfold pause_in_range; lia|].
  apply Hpause; lia.
Defined.



(** ** URL sanitization: what is kept and when it raises *)

(** The loop over the components returns when each of them has a key
    and a value, and raises [ValueError] at the first that has not. *)
Lemma filter_query_outcome (qs : list string) :
  (Forall two_parts qs -> Shaper.filter_query qs = Return (List.filter keep qs))
  /\ (~ Forall two_parts qs -> Shaper.filter_query qs = Raise ValueError).
Proof.
  induction qs as [|q qs [IHok IHbad]]; cbn [Shaper.filter_query].
  - split; [done|]. intros H. by destruct H.
  - destruct (Shaper.split "=" q) as [|key [|value [|]]] eqn:Hs.
    + split; [|done]. inversion 1 as [|? ? (k & v & Hkv)]. congruence.
    + split; [|done]. inversion 1 as [|? ? (k & v & Hkv)]. congruence.
    + split.
      * inversion 1 as [|? ? _ Hrest]; subst. rewrite (IHok Hrest). cbn.
        assert (keep q = Shaper.not_volatile key) as -> by (unfold keep; by rewrite Hs).
        destruct (split_two _ _ _ _ Hs) as (<- & _ & _).
        by destruct (Shaper.not_volatile key).
      * intros Hbad. rewrite IHbad; [done|]. intros Hrest. apply Hbad.
        constructor; [by exists key, value|done].
    + split; [|done]. inversion 1 as [|? ? (k & v & Hkv)]. congruence.
Qed.

Section SanitizerProperties.
Variable urlparse : string -> outcome Sanitizer.ParseResult.
Variable urlunparse : Sanitizer.ParseResult -> string.

Local Abbreviation clear_query_params := (Sanitizer.clear_query_params urlparse urlunparse).
Local Abbreviation clear_url := (Sanitizer.clear_url urlparse urlunparse).

(** Whatever the library does with the text of a URL:
    [clear_query_params] raises what [urlparse] raises; on the parsed
    URL it returns exactly when the query splits at [&] into components
    with one [=] each, and then rebuilds the URL from the same components
    with the query made of the kept ones, in their order and as they were
    written; every other query, the empty one among them, ends in
    [ValueError]. *)
Theorem clear_query_params_outcome (u : string) :
  (forall e, urlparse u = Raise e -> clear_query_params u = Raise e)
  /\ (forall p,
        urlparse u = Return p ->
        (Forall two_parts (Shaper.split "&" (Sanitizer.query p)) ->
           clear_query_params u
           = Return (urlunparse
                       (Sanitizer._replace_query p
                          (Shaper.join "&"
                             (List.filter keep
                                (Shaper.split "&" (Sanitizer.query p)))))))
        /\ (~ Forall two_parts (Shaper.split "&" (Sanitizer.query p)) ->
            clear_query_params u = Raise ValueError)
        /\ (Sanitizer.query p = EmptyString ->
            clear_query_params u = Raise ValueError)).
Proof.
  unfold Sanitizer.clear_query_params. split.
  - by intros e ->.
  - intros p ->. cbn.
    destruct (filter_query_outcome (Shaper.split "&" (Sanitizer.query p)))
      as [Hok Hbad].
    split; [|split].
    + intros Hall. by rewrite (Hok Hall).
    + intros Hnot. by rewrite (Hbad Hnot).
    + intros Hempty. by rewrite Hempty.
Qed.

(** A URL [clear_query_params] returned, sanitized once more: when the
    library reads the rebuilt URL back as the components it was built
    from, the second pass returns the URL unchanged if a parameter was
    kept, and raises [ValueError] if none was. *)
Theorem clear_query_params_twice (u u' : string) (p : Sanitizer.ParseResult) :
  urlparse u = Return p ->
  clear_query_params u = Return u' ->
  let kept := List.filter keep (Shaper.split "&" (Sanitizer.query p)) in
  u' = urlunparse (Sanitizer._replace_query p (Shaper.join "&" kept))
  /\ (urlparse u' = Return (Sanitizer._replace_query p (Shaper.join "&" kept)) ->
      clear_query_params u'
      = if String.eqb (Shaper.join "&" kept) EmptyString
        then Raise ValueError else Return u').
Proof.
  intros Hparse Hfirst kept. unfold Sanitizer.clear_query_params in Hfirst.
  rewrite Hparse in Hfirst. cbn in Hfirst.
  destruct (Shaper.filter_query (Shaper.split "&" (Sanitizer.query p)))
    as [res|] eqn:Hres; [cbn in Hfirst|done].
  destruct (filter_query_filter _ _ Hres) as [Htwo ->]. fold kept in Hfirst.
  injection Hfirst as <-. split; [done|].
  intros Hback. unfold Sanitizer.clear_query_params. rewrite Hback. cbn.
  assert (Hfixed : Shaper.filter_query kept = Return kept)
    by apply (filter_query_fixed _ Htwo).
  assert (Hin : forall x, In x kept -> two_parts x /\ lacks "&" x = true).
  { intros x [Hx _]%filter_In. split.
    - by apply (proj1 (List.Forall_forall _ _) Htwo).
    - by apply (proj1 (List.Forall_forall _ _)
                  (split_lacks "&" (Sanitizer.query p))). }
  clearbody kept. destruct kept as [|x l]; [done|].
  assert (Hne : String.eqb (Shaper.join "&" (x :: l)) EmptyString = false).
  { destruct (Hin x) as [(k & v & Hs) _]; [by left|].
    destruct (split_two _ _ _ _ Hs) as (-> & _ & _).
    apply String.eqb_neq. destruct l as [|y l'].
    - apply append_not_empty.
    - rewrite join_cons, append_assoc. apply append_not_empty. }
  rewrite Hne, split_join; [|done|].
  - rewrite Hfixed. cbn. do 2 f_equal.
  - apply List.Forall_forall. intros y Hy. by apply Hin.
Qed.

(** [clear_url] changes one field at most and no key.  On a video with
    a media URL it is the media URL, which becomes the sanitized text, and
    the profile picture URL stays as it is; on every other record the
    media URL stays as it is, and the profile picture URL becomes the
    sanitized text when it is true; a record with neither comes back
    unchanged. *)
Theorem clear_url_frame (record_data cleared : gmap string value) :
  clear_url record_data = Return cleared ->
  dom cleared = dom record_data
  /\ (forall k, k <> "media_url" -> k <> "profile_picture_url" ->
                cleared !! k = record_data !! k)
  /\ (video_with_url record_data = true ->
      cleared !! "profile_picture_url" = record_data !! "profile_picture_url"
      /\ exists url sanitized,
           record_data !! "media_url" = Some (VStr url)
           /\ clear_query_params url = Return sanitized
           /\ cleared !! "media_url" = Some (VStr sanitized))
  /\ (video_with_url record_data = false ->
      cleared !! "media_url" = record_data !! "media_url"
      /\ (truthy (get record_data "profile_picture_url") = true ->
          exists url sanitized,
            record_data !! "profile_picture_url" = Some (VStr url)
            /\ clear_query_params url = Return sanitized
            /\ cleared !! "profile_picture_url" = Some (VStr sanitized))
      /\ (truthy (get record_data "profile_picture_url") = false ->
          cleared = record_data)).
Proof.
  unfold Sanitizer.clear_url, video_with_url.
  assert (Hdom : forall k (new : value) (m : gmap string value),
             truthy (get m k) = true -> dom (<[k := new]> m) = dom m).
  { intros k new m Ht. rewrite dom_insert_L.
    apply subseteq_union_1_L, singleton_subseteq_l.
    apply elem_of_dom. unfold get in Ht. by destruct (m !! k). }
  assert (Hstr : forall (m : gmap string value) k url,
             Shaper.url_of (get m k) = Return url -> m !! k = Some (VStr url)).
  { intros m k url. unfold get. destruct (m !! k) as [[]|]; cbn; try done.
    by intros [= ->]. }
  destruct (eq_str (get record_data "media_type") "VIDEO"
            && truthy (get record_data "media_url")) eqn:Hvideo.
  - apply andb_true_iff in Hvideo as [_ Hurl].
    destruct (Shaper.url_of (get record_data "media_url")) as [url|] eqn:Hof;
      [cbn|done].
    destruct (Sanitizer.clear_query_params urlparse urlunparse url)
      as [sanitized|] eqn:Hclean; [cbn|done].
    intros [= <-]. split; [by apply Hdom|]. split; [|split; [|done]].
    + intros k Hk _. by rewrite lookup_insert_ne.
    + intros _. split; [by rewrite lookup_insert_ne|].
      exists url, sanitized. by rewrite lookup_insert_eq, (Hstr _ _ _ Hof).
  - destruct (truthy (get record_data "profile_picture_url")) eqn:Hurl.
    + destruct (Shaper.url_of (get record_data "profile_picture_url"))
        as [url|] eqn:Hof; [cbn|done].
      destruct (Sanitizer.clear_query_params urlparse urlunparse url)
        as [sanitized|] eqn:Hclean; [cbn|done].
      intros [= <-]. split; [by apply Hdom|]. split; [|split; [done|]].
      * intros k _ Hk. by rewrite lookup_insert_ne.
      * intros _. split; [by rewrite lookup_insert_ne|]. split; [|done].
        intros _. exists url, sanitized.
        by rewrite lookup_insert_eq, (Hstr _ _ _ Hof).
    + intros [= <-]. repeat split; done.
Qed.
End SanitizerProperties.

Lemma clear_query_params_outcome_witness :
  Sanitizer.clear_query_params Samples.urlparse Samples.urlunparse
    "https://x.test/a.jpg?oh=5f&ccb=1-3"
  = Return (Samples.urlunparse
              (Sanitizer._replace_query
                 {| Sanitizer.scheme := EmptyString; Sanitizer.netloc := EmptyString;
                    Sanitizer.path := "https://x.test/a.jpg";
                    Sanitizer.params := EmptyString;
                    Sanitizer.query := "oh=5f&ccb=1-3";
                    Sanitizer.fragment := EmptyString |}
                 (Shaper.join "&" (List.filter keep (Shaper.split "&" "oh=5f&ccb=1-3")))))
  /\ Sanitizer.clear_query_params Samples.urlparse Samples.urlunparse
       "https://x.test/a.jpg?oh=5f&sig=ab==" = Raise ValueError
  /\ Sanitizer.clear_query_params Samples.urlparse Samples.urlunparse
       "https://x.test/a.jpg" = Raise ValueError.
Proof.
  split; [|split].
  - apply (proj1 (proj2 (clear_query_params_outcome Samples.urlparse Samples.urlunparse
                           "https://x.test/a.jpg?oh=5f&ccb=1-3") _ eq_refl)).
    repeat constructor; eexists _, _; reflexivity.
  - apply (proj1 (proj2 (proj2 (clear_query_params_outcome Samples.urlparse
                                  Samples.urlunparse "https://x.test/a.jpg?oh=5f&sig=ab==")
                           _ eq_refl))).
    intros Hall. inversion Hall as [|? ? _ Hrest]; subst.
    inversion Hrest as [|? ? (k & v & Hkv) _]; subst. vm_compute in Hkv. discriminate Hkv.
  - apply (proj2 (proj2 (proj2 (clear_query_params_outcome Samples.urlparse
                                  Samples.urlunparse "https://x.test/a.jpg")
                           _ eq_refl))).
    reflexivity.
Defined.

Lemma clear_query_params_twice_witness :
  let u' := "https://video.xx.fbcdn.net/v/clip.mp4?_nc_cat=1&oh=5f#t" in
  Sanitizer.clear_query_params Samples.urlparse Samples.urlunparse u' = Return u'.
Proof.
  intros u'.
  destruct (clear_query_params_twice Samples.urlparse Samples.urlunparse
              "https://video.xx.fbcdn.net/v/clip.mp4?_nc_cat=1&_nc_rid=77ab&oh=5f&ccb=1-3#t"
              u'
              {| Sanitizer.scheme := EmptyString; Sanitizer.netloc := EmptyString;
                 Sanitizer.path := "https://video.xx.fbcdn.net/v/clip.mp4";
                 Sanitizer.params := EmptyString;
                 Sanitizer.query := "_nc_cat=1&_nc_rid=77ab&oh=5f&ccb=1-3";
                 Sanitizer.fragment := "t" |})
    as [_ Hsecond]; [vm_compute; reflexivity|vm_compute; reflexivity|].
  rewrite Hsecond; vm_compute; reflexivity.
Defined.

Lemma clear_url_frame_witness :
  let record : gmap string value :=
    <["media_url" := VStr "https://video.xx.fbcdn.net/v/clip.mp4?_nc_rid=77ab&oh=5f"]>
      (<["profile_picture_url" := VStr "https://x.test/a.jpg?ccb=1-3"]>
         {[ "media_type" := VStr "VIDEO" ]}) in
  let cleared : gmap string value :=
    <["media_url" := VStr "https://video.xx.fbcdn.net/v/clip.mp4?oh=5f"]> record in
  Sanitizer.clear_url Samples.urlparse Samples.urlunparse record = Return cleared
  /\ cleared !! "profile_picture_url" = Some (VStr "https://x.test/a.jpg?ccb=1-3")
  /\ cleared !! "media_type" = record !! "media_type".
Proof.
  intros record cleared.
  assert (Hrun : Sanitizer.clear_url Samples.urlparse Samples.urlunparse record
                 = Return cleared) by (vm_compute; reflexivity).
  destruct (clear_url_frame Samples.urlparse Samples.urlunparse record cleared Hrun)
    as (_ & Hother & Hvideo & _).
  split; [exact Hrun|]. split.
  - rewrite (proj1 (Hvideo ltac:(vm_compute; reflexivity))). vm_compute; reflexivity.
  - by apply Hother.
Defined.

(** ** Instagram: finding the business accounts *)

Lemma collect_Return (api_get : string -> outcome (gmap string value))
    (ids : list string) (l : list InstagramApi.account) :
  InstagramApi.collect api_get ids = Return l ->
  map InstagramApi.page_id l = List.filter (has_business_account api_get) ids
  /\ Forall (fun a => exists page d,
                 api_get (InstagramApi.page_id a) = Return page
                 /\ get page "instagram_business_account" = VDict d
                 /\ InstagramApi.instagram_business_account a = get d "id") l.
Proof.
  revert l. induction ids as [|id ids IH]; intros l; cbn [InstagramApi.collect].
  - intros [= <-]. by split.
  - cbn [List.filter].
    destruct (api_get id) as [page|e] eqn:Hpage; [cbn|done].
    assert (has_business_account api_get id
            = truthy (get page "instagram_business_account")) as ->
      by (unfold has_business_account; by rewrite Hpage).
    destruct (truthy (get page "instagram_business_account")) eqn:Htrue.
    + destruct (get page "instagram_business_account") as [| | | | | |d] eqn:Hig;
        try done.
      cbn. destruct (InstagramApi.collect api_get ids) as [found|e]; [cbn|done].
      intros [= <-]. destruct (IH found eq_refl) as [Hmap Hall].
      split; [cbn; by rewrite Hmap|].
      constructor; [|done]. cbn. by exists page, d.
    + apply IH.
Qed.

(** [_find_accounts] returns a list that is never empty: the pages
    whose page data names a business account, in the order of the
    accounts.  It never lets a [FacebookRequestError] out: one raised by
    the account query becomes [InstagramAPIException] with its code and
    message, and with no business account among the pages the method
    raises [InstagramAPIException] too. *)
Theorem find_accounts_outcome (get_accounts : outcome (list string))
    (api_get : string -> outcome (gmap string value)) :
  (forall l,
      InstagramApi._find_accounts get_accounts api_get = InstagramApi.Accounts l ->
      l <> []
      /\ exists ids,
           get_accounts = Return ids
           /\ map InstagramApi.page_id l
              = List.filter (has_business_account api_get) ids)
  /\ (forall exc,
        InstagramApi._find_accounts get_accounts api_get
        <> InstagramApi.Raised (FacebookRequestError exc))
  /\ (forall exc,
        get_accounts = Raise (FacebookRequestError exc) ->
        InstagramApi._find_accounts get_accounts api_get
        = InstagramApi.InstagramAPIException
            (InstagramApi.ProviderError (api_error_code exc) (api_error_message exc)))
  /\ (forall ids,
        get_accounts = Return ids ->
        Forall (fun id => exists page,
                    api_get id = Return page
                    /\ truthy (get page "instagram_business_account") = false) ids ->
        InstagramApi._find_accounts get_accounts api_get
        = InstagramApi.InstagramAPIException InstagramApi.NoBusinessAccount).
Proof.
  unfold InstagramApi._find_accounts. split; [|split; [|split]].
  - intros l. destruct get_accounts as [ids|e]; cbn.
    + destruct (InstagramApi.collect api_get ids) as [[|a found]|e] eqn:Hcollect.
      * done.
      * intros [= <-]. split; [done|]. exists ids. split; [done|].
        by destruct (collect_Return _ _ _ Hcollect).
      * by destruct e.
    + by destruct e.
  - intros exc. destruct get_accounts as [ids|e]; cbn.
    + destruct (InstagramApi.collect api_get ids) as [[|a found]|e]; try done.
      by destruct e.
    + by destruct e.
  - by intros exc ->.
  - intros ids -> Hnone. cbn.
    assert (InstagramApi.collect api_get ids = Return []) as ->; [|done].
    induction Hnone as [|id ids (page & Hpage & Hfalse) _ IH]; [done|].
    cbn. rewrite Hpage. cbn. by rewrite Hfalse.
Qed.

Lemma find_accounts_outcome_witness :
  InstagramApi._find_accounts (Raise (FacebookRequestError Samples.unavailable))
    (fun _ => Return ∅)
  = InstagramApi.InstagramAPIException
      (InstagramApi.ProviderError (api_error_code Samples.unavailable)
         (api_error_message Samples.unavailable))
  /\ InstagramApi._find_accounts (Return ["101"; "102"]) (fun _ => Return ∅)
     = InstagramApi.InstagramAPIException InstagramApi.NoBusinessAccount.
Proof.
  split.
  - apply (proj1 (proj2 (proj2 (find_accounts_outcome
                                  (Raise (FacebookRequestError Samples.unavailable))
                                  (fun _ => Return ∅)))) Samples.unavailable).
    reflexivity.
  - apply (proj2 (proj2 (proj2 (find_accounts_outcome (Return ["101"; "102"])
                                  (fun _ => Return ∅)))) ["101"; "102"]);
      [reflexivity|].
    repeat constructor; by exists ∅.
Defined.

(** ** [UserInsights]: the window of days *)

Lemma set_state_lookup (day now start_date : Z) (st : gmap string Z)
    (account_id : string) :
  exists w,
    InstagramStreams._set_state day now start_date st account_id !! account_id = Some w
    /\ now - 29 * day <= w.
Proof.
  unfold InstagramStreams._set_state, InstagramStreams.buffer_days.
  eexists. split; [by rewrite lookup_insert_eq|].
  rewrite max_with_gtb. lia.
Qed.

(** After [_set_state] the watermark of the account is at most 29 days
    before now and not below what was stored for it; an account without
    a stored state starts from the start date, again not earlier than 29
    days before now.  No other account changes. *)
Theorem set_state_floor (day now start_date : Z) (st : gmap string Z)
    (account_id : string) :
  exists w,
    InstagramStreams._set_state day now start_date st account_id !! account_id = Some w
    /\ now - 29 * day <= w
    /\ (forall old, st !! account_id = Some old ->
                    w = Z.max old (now - 29 * day) /\ old <= w)
    /\ (st !! account_id = None -> w = Z.max start_date (now - 29 * day))
    /\ (forall other, other <> account_id ->
          InstagramStreams._set_state day now start_date st account_id !! other
          = st !! other).
Proof.
  unfold InstagramStreams._set_state, InstagramStreams.buffer_days.
  eexists. split; [by rewrite lookup_insert_eq|].
  rewrite max_with_gtb. split; [lia|]. split; [|split].
  - intros old ->. cbn. lia.
  - by intros ->.
  - intros other Hne. by rewrite lookup_insert_ne.
Qed.

(** The loop of [_params], with enough fuel for its days *)
Lemma params_from_days (day : Z) (to_datetime_string : Z -> string)
    (end_date buffered_start_date : Z) (fuel : nat) :
  0 < day ->
  let n := if buffered_start_date <=? end_date
           then S (Z.to_nat ((end_date - buffered_start_date) / day)) else O in
  (n <= fuel)%nat ->
  InstagramStreams.params_from day to_datetime_string fuel end_date buffered_start_date
  = Some (map (fun i => InstagramStreams.params_list day to_datetime_string
                          (buffered_start_date + Z.of_nat i * day))
              (seq 0 n)).
Proof.
  intros Hday n. subst n.
  revert buffered_start_date.
  induction fuel as [|fuel IH]; intros b Hfuel.
  - cbn. destruct (Z.leb_spec b end_date); [lia|done].
  - cbn [InstagramStreams.params_from].
    destruct (Z.leb_spec b end_date) as [Hle|Hgt]; [|done].
    unfold InstagramStreams.days_increment. rewrite Z.mul_1_l.
    rewrite IH.
    + cbn [option_bind mbind option_ret]. cbn. f_equal.
      rewrite Z.add_0_r. f_equal.
      destruct (Z.leb_spec (b + day) end_date) as [Hle'|Hgt'].
      * replace (Z.to_nat ((end_date - b) / day))
          with (S (Z.to_nat ((end_date - (b + day)) / day))).
        2:{ replace (end_date - b) with ((end_date - (b + day)) + 1 * day) by lia.
            rewrite Z.div_add by lia.
            assert (0 <= (end_date - (b + day)) / day) by (apply Z.div_pos; lia).
            lia. }
        rewrite <- seq_shift, map_map. apply map_ext. intros i.
        assert (b + day + Z.of_nat i * day = b + Z.of_nat (S i) * day) as ->
          by (rewrite Nat2Z.inj_succ; ring).
        reflexivity.
      * replace ((end_date - b) / day) with 0; [done|].
        symmetry. apply Z.div_small. lia.
    + destruct (Z.leb_spec (b + day) end_date) as [Hle'|Hgt']; [|lia].
      assert ((end_date - b) / day = (end_date - (b + day)) / day + 1).
      { replace (end_date - b) with ((end_date - (b + day)) + 1 * day) by lia.
        by rewrite Z.div_add by lia. }
      assert (0 <= (end_date - (b + day)) / day) by (apply Z.div_pos; lia).
      lia.
Qed.

Section CalendarDays.
Variable add_day : Z -> Z.
Variable to_datetime_string : Z -> string.
Variable step : Z.
Hypothesis step_positive : 0 < step.
(** Adding a day moves an instant on by at least [step], whatever the
    length of that day *)
Hypothesis add_day_advances : forall d, d + step <= add_day d.

Lemma calendar_params_from_days (end_date : Z) (fuel : nat) :
  forall b : Z,
    (passes_bound step end_date b <= fuel)%nat ->
    exists n,
      (n <= passes_bound step end_date b)%nat
      /\ Calendar.params_from add_day to_datetime_string fuel end_date b
         = Some (map (fun i => Calendar.params_list add_day to_datetime_string
                                 (Nat.iter i add_day b))
                     (seq 0 n))
      /\ (forall i, (i < n)%nat -> Nat.iter i add_day b <= end_date)
      /\ end_date < Nat.iter n add_day b.
Proof.
  unfold passes_bound.
  induction fuel as [|fuel IH]; intros b Hfuel.
  - exists O. cbn. destruct (Z.leb_spec b end_date); [lia|].
    repeat split; [done|lia|cbn; lia].
  - destruct (Z.leb_spec b end_date) as [Hle|Hgt].
    2:{ exists O. cbn [Calendar.params_from].
        destruct (Z.leb_spec b end_date); [lia|].
        repeat split; [done|lia|cbn; lia]. }
    pose proof (add_day_advances b) as Hadv.
    assert (Hquot : 0 <= (end_date - b) / step) by (apply Z.div_pos; lia).
    assert (Hdrop : (end_date - add_day b) / step + 1 <= (end_date - b) / step).
    { replace (end_date - b) with ((end_date - b - step) + 1 * step) by lia.
      rewrite Z.div_add by lia. apply Z.add_le_mono_r, Z.div_le_mono; lia. }
    destruct (IH (add_day b)) as (n & Hn & Hrun & Hbelow & Habove).
    { destruct (Z.leb_spec (add_day b) end_date) as [Hle'|_]; [|lia].
      assert (0 <= (end_date - add_day b) / step) by (apply Z.div_pos; lia).
      lia. }
    exists (S n). split; [|split; [|split]].
    + destruct (Z.leb_spec (add_day b) end_date) as [Hle'|Hgt'].
      * assert (0 <= (end_date - add_day b) / step) by (apply Z.div_pos; lia).
        lia.
      * lia.
    + cbn [Calendar.params_from]. destruct (Z.leb_spec b end_date); [|lia].
      rewrite Hrun. cbn. f_equal. f_equal.
      rewrite <- seq_shift, map_map. apply map_ext. intros i.
      by rewrite Nat.iter_succ_r.
    + intros [|i] Hi; [done|]. rewrite Nat.iter_succ_r. apply Hbelow. lia.
    + by rewrite Nat.iter_succ_r.
Qed.

(** The days [_params] yields, whatever the lengths of the days: one
    list of requests for the watermark of the account and for each day
    that adding a day reaches from it, as long as the day is not past the
    end date, and none when the watermark is past the end date.  The loop
    ends, after at most one pass for every [step] between the watermark
    and the end date. *)
Theorem params_days (end_date buffered_start_date : Z) (st : gmap string Z)
    (account_id : string) (fuel : nat) :
  st !! account_id = Some buffered_start_date ->
  (passes_bound step end_date buffered_start_date <= fuel)%nat ->
  exists n,
    (n <= passes_bound step end_date buffered_start_date)%nat
    /\ Calendar._params add_day to_datetime_string fuel end_date st account_id
       = Some (Return (map (fun i => Calendar.params_list add_day to_datetime_string
                                       (Nat.iter i add_day buffered_start_date))
                           (seq 0 n)))
    /\ (forall i, (i < n)%nat -> Nat.iter i add_day buffered_start_date <= end_date)
    /\ end_date < Nat.iter n add_day buffered_start_date.
Proof.
  intros Hstate Hfuel. unfold Calendar._params. rewrite Hstate.
  destruct (calendar_params_from_days end_date fuel buffered_start_date Hfuel)
    as (n & Hn & Hrun & Hdays).
  exists n. split; [done|]. by rewrite Hrun.
Qed.
End CalendarDays.

Lemma params_days_witness :
  exists n,
    (n <= passes_bound 82800 259200 0)%nat
    /\ Calendar._params Samples.add_day Samples.decimal 5 259200
         ({[ "17841400" := 0 ]} : gmap string Z) "17841400"
       = Some (Return (map (fun i => Calendar.params_list Samples.add_day Samples.decimal
                                       (Nat.iter i Samples.add_day 0))
                           (seq 0 n)))
    /\ (forall i, (i < n)%nat -> Nat.iter i Samples.add_day 0 <= 259200)
    /\ 259200 < Nat.iter n Samples.add_day 0.
Proof.
  apply (params_days Samples.add_day Samples.decimal 82800 ltac:(lia)
           ltac:(intros d; unfold Samples.add_day; destruct (d =? 86400); lia)
           259200 0 ({[ "17841400" := 0 ]} : gmap string Z) "17841400" 5);
    [reflexivity|vm_compute; lia].
Defined.

(** ** [UserInsights.list]: the dates of the records it yields *)

(** What a returning [state_filter] has read and done. *)
Lemma state_filter_Return (parse : value -> outcome Z)
    (state_pk cursor_field class_name : string)
    (st st' : gmap string Z) (record : gmap string value)
    (r : option (gmap string value)) (log : list Instagram.log_line) :
  Instagram.state_filter parse state_pk cursor_field class_name st record
    = Return (r, st', log) ->
  exists d c a w,
    record !! state_pk = Some d /\ parse d = Return c
    /\ record !! cursor_field = Some (VStr a) /\ st !! a = Some w
    /\ ((r = None /\ st' = st /\ c <= w)
        \/ (r = Some record /\ st' = <[a := c]> st /\ w < c)).
Proof.
  unfold Instagram.state_filter, getitem.
  destruct (record !! state_pk) as [d|] eqn:Hd; [cbn|done].
  destruct (parse d) as [c|] eqn:Hp; [cbn|done].
  destruct (record !! cursor_field) as [k|] eqn:Hk; [cbn|done].
  destruct k as [| | | |a| |]; try done. cbn.
  destruct (st !! a) as [w|] eqn:Hw; [cbn|done].
  rewrite Z.geb_leb, max_with_gtb.
  destruct (Z.leb_spec c w) as [Hle|Hlt]; intros [= <- <- <-];
    exists d, c, a, w; repeat split; try done.
  - left. by repeat split.
  - right. repeat split; [|done]. by rewrite Z.max_l by lia.
Qed.

(** The merge leaves a key alone that is neither ["date"] nor the key of
    an entry. *)
Lemma add_insights_other_key (l : list Shaper.insight) (k : string) :
  k <> "date" -> Forall (fun i => Shaper.insight_key i <> k) l ->
  forall rec rec' : gmap string value,
    Shaper.add_insights rec l = Return rec' -> rec' !! k = rec !! k.
Proof.
  intros Hdate. induction 1 as [|i l Hi _ IH]; intros rec rec'; cbn.
  - by intros [= <-].
  - unfold Shaper.add_insight, Shaper.first_value, getitem.
    destruct (Shaper.values i) as [|p rest]; [done|]. cbn.
    destruct (p !! "value") as [v|]; [|done]. cbn.
    destruct (negb _).
    + destruct (p !! "end_time") as [t|]; [|done]. cbn.
      intros Hrest%IH. by rewrite Hrest, !lookup_insert_ne.
    + cbn. intros Hrest%IH. by rewrite Hrest, lookup_insert_ne.
Qed.

Lemma insights_of_day_Forall (P : Shaper.insight -> Prop)
    (_get_insight_records : InstagramStreams.day_params -> outcome (list Shaper.insight))
    (params_per_day : list InstagramStreams.day_params) (l : list Shaper.insight) :
  (forall params insights,
      _get_insight_records params = Return insights -> Forall P insights) ->
  InstagramStreams.insights_of_day _get_insight_records params_per_day = Return l ->
  Forall P l.
Proof.
  intros Hall. revert l.
  induction params_per_day as [|params rest IH]; intros l; cbn.
  - by intros [= <-].
  - destruct (_get_insight_records params) as [insights|] eqn:Hget; [cbn|done].
    destruct (InstagramStreams.insights_of_day _get_insight_records rest) as [more|];
      [cbn|done].
    intros [= <-]. apply Forall_app. split; [by eapply Hall|by apply IH].
Qed.

Lemma last_cons (c w : Z) (cs : list Z) :
  List.last (c :: cs) w = List.last cs c.
Proof.
  revert c w. induction cs as [|z cs IH]; intros c w; [done|].
  change (List.last (c :: z :: cs) w) with (List.last (z :: cs) w).
  by rewrite !IH.
Qed.

Section UserInsightsList.
Variable day : Z.
Variable to_datetime_string : Z -> string.
Variable parse : value -> outcome Z.
Variable _get_insight_records : InstagramStreams.day_params -> outcome (list Shaper.insight).
Variable page_id : value.
Variable account_id : string.

(** No metric of the provider is called like the account field of the
    record. *)
Hypothesis metric_names :
  forall params insights,
    _get_insight_records params = Return insights ->
    Forall (fun i => Shaper.insight_key i <> "business_account_id") insights.

Lemma list_days_dates (days : list (list InstagramStreams.day_params)) :
  forall (st st' : gmap string Z) (w : Z) records ending,
    st !! account_id = Some w ->
    InstagramStreams.list_days parse _get_insight_records page_id account_id st days
      = (records, st', ending) ->
    exists cs,
      Forall2 (fun (r : gmap string value) c =>
                 exists d, r !! "date" = Some d /\ parse d = Return c) records cs
      /\ increasing_from w cs
      /\ st' !! account_id = Some (List.last cs w)
      /\ Forall (fun r : gmap string value =>
                   r !! "business_account_id" = Some (VStr account_id)) records.
Proof.
  induction days as [|params_per_day days IH]; intros st st' w records ending Hw;
    cbn [InstagramStreams.list_days].
  - intros [= <- <- <-]. exists []. by repeat split.
  - destruct (InstagramStreams.insights_of_day _get_insight_records params_per_day)
      as [insight_list|e] eqn:Hday; cbn.
    2:{ intros [= <- <- <-]. exists []. by repeat split. }
    destruct (Shaper.UserInsights_day parse st page_id (VStr account_id) insight_list)
      as [[[r st1] log]|e] eqn:Hstep.
    2:{ intros [= <- <- <-]. exists []. by repeat split. }
    destruct (InstagramStreams.list_days parse _get_insight_records page_id account_id
                st1 days) as [[records' st2] ending'] eqn:Hrest.
    intros [= <- <- <-].
    unfold Shaper.UserInsights_day in Hstep.
    destruct insight_list as [|i insight_list].
    { injection Hstep as <- <- <-.
      destruct (IH _ _ _ _ _ Hw Hrest) as (cs & Hcs). by exists cs. }
    destruct (Shaper.insight_record page_id (VStr account_id) (i :: insight_list))
      as [merged|] eqn:Hmerged; [cbn in Hstep|done].
    assert (Haccount : merged !! "business_account_id" = Some (VStr account_id)).
    { unfold Shaper.insight_record in Hmerged.
      rewrite (add_insights_other_key _ "business_account_id" ltac:(done)
                 (insights_of_day_Forall _ _ _ _ metric_names Hday) _ _ Hmerged).
      by rewrite lookup_insert_eq. }
    apply state_filter_Return in Hstep
      as (d & c & a & w' & Hd & Hp & Ha & Hw' & [(-> & -> & Hle)|(-> & -> & Hlt)]).
    + destruct (IH _ _ _ _ _ Hw Hrest) as (cs & Hcs). by exists cs.
    + rewrite Haccount in Ha. injection Ha as <-.
      rewrite Hw in Hw'. injection Hw' as <-.
      destruct (IH (<[account_id := c]> st) st2 c records' ending'
                  ltac:(by rewrite lookup_insert_eq) Hrest)
        as (cs & Hdates & Hrise & Hlast & Hacc).
      exists (c :: cs). split; [constructor; [by exists d|done]|].
      split; [cbn; split; [lia|exact Hrise]|].
      split; [by rewrite last_cons|]. by constructor.
Qed.

(** The records [UserInsights.list] yields for an account carry the id
    of the account and dates that rise strictly, the first of them above
    the watermark [_set_state] left; the state of the account ends at the
    last of these dates.  This holds also when the loop ends with an
    exception.  And the loop ends: with enough fuel for the days from the
    watermark to the end date there is a result. *)
Theorem user_insights_dates_rise (now start_date end_date : Z) (st : gmap string Z) :
  (forall fuel records st' ending,
      InstagramStreams.list_account day to_datetime_string parse _get_insight_records
        fuel now start_date end_date page_id account_id st
        = Some (records, st', ending) ->
      exists w cs,
        InstagramStreams._set_state day now start_date st account_id !! account_id
          = Some w
        /\ Forall2 (fun (r : gmap string value) c =>
                      exists d, r !! "date" = Some d /\ parse d = Return c) records cs
        /\ increasing_from w cs
        /\ st' !! account_id = Some (List.last cs w)
        /\ Forall (fun r : gmap string value =>
                     r !! "business_account_id" = Some (VStr account_id)) records)
  /\ (0 < day ->
      forall fuel,
        (Z.to_nat ((end_date - now) / day + 31) <= fuel)%nat ->
        exists result,
          InstagramStreams.list_account day to_datetime_string parse
            _get_insight_records fuel now start_date end_date page_id account_id st
          = Some result).
Proof.
  destruct (set_state_lookup day now start_date st account_id)
    as (w & Hw & Hfloor).
  unfold InstagramStreams.list_account, InstagramStreams._params.
  rewrite Hw. split.
  - intros fuel records st' ending.
    destruct (InstagramStreams.params_from day to_datetime_string fuel end_date w)
      as [days|]; [cbn|done].
    intros [= Hrun]. exists w.
    destruct (list_days_dates days _ _ _ _ _ Hw Hrun) as (cs & Hcs). by exists cs.
  - intros Hday fuel Hfuel.
    rewrite (params_from_days day to_datetime_string end_date w fuel Hday).
    + cbn. by eexists.
    + destruct (Z.leb_spec w end_date) as [Hle|_]; [|lia].
      assert ((end_date - w) / day <= (end_date - (now - 29 * day)) / day)
        by (apply Z.div_le_mono; lia).
      replace (end_date - (now - 29 * day)) with ((end_date - now) + 29 * day) in H
        by lia.
      rewrite Z.div_add in H by lia.
      assert (0 <= (end_date - w) / day) by (apply Z.div_pos; lia).
      lia.
Qed.
End UserInsightsList.

Lemma user_insights_dates_rise_witness :
  let st : gmap string Z := {[ "17841400" := 1611964800 ]} in
  exists records st' ending w cs,
    InstagramStreams.list_account 86400 Samples.decimal Fixtures.parse_instant
      Samples.daily_reach 31 1612137600 1609459200 1612137600 (VStr "1029") "17841400" st
    = Some (records, st', ending)
    /\ InstagramStreams._set_state 86400 1612137600 1609459200 st "17841400"
         !! "17841400" = Some w
    /\ Forall2 (fun (r : gmap string value) c =>
                  exists d, r !! "date" = Some d /\ Fixtures.parse_instant d = Return c)
         records cs
    /\ increasing_from w cs
    /\ st' !! "17841400" = Some (List.last cs w)
    /\ Forall (fun r : gmap string value =>
                 r !! "business_account_id" = Some (VStr "17841400")) records.
Proof.
  intros st.
  assert (Hnames : forall params insights,
             Samples.daily_reach params = Return insights ->
             Forall (fun i => Shaper.insight_key i <> "business_account_id") insights).
  { intros params insights [= <-]. repeat constructor.
    unfold Shaper.insight_key. cbn.
    destruct (_ || _); [rewrite append_String|]; discriminate. }
  destruct (user_insights_dates_rise 86400 Samples.decimal Fixtures.parse_instant
              Samples.daily_reach (VStr "1029") "17841400" Hnames
              1612137600 1609459200 1612137600 st) as [Hdates Hends].
  destruct (Hends ltac:(lia) 31%nat ltac:(vm_compute; lia))
    as ([[records st'] ending] & Hrun).
  destruct (Hdates _ _ _ _ Hrun) as (w & cs & Hall).
  exists records, st', ending, w, cs. split; [exact Hrun|exact Hall].
Defined.

(** ** [MediaInsights.list] and [StoriesInsights.list]: items without insights *)

Section ItemInsightsProperties.
Variable get_insights : gmap string value -> list string -> outcome (list Shaper.insight).






End ItemInsightsProperties.



(** ** [Stories.list]: the fields of the account *)

Section StoriesRecords.
Variable urlparse : string -> outcome Sanitizer.ParseResult.
Variable urlunparse : Sanitizer.ParseResult -> string.

Lemma clear_url_other (record_data cleared : gmap string value) (k : string) :
  Sanitizer.clear_url urlparse urlunparse record_data = Return cleared ->
  k <> "media_url" -> k <> "profile_picture_url" ->
  cleared !! k = record_data !! k.
Proof.
  unfold Sanitizer.clear_url. intros Hrun Hmedia Hpicture.
  destruct (_ && _).
  - destruct (Shaper.url_of _) as [url|]; [cbn in Hrun|done].
    destruct (Sanitizer.clear_query_params _ _ url) as [c|]; [cbn in Hrun|done].
    injection Hrun as <-. by rewrite lookup_insert_ne.
  - destruct (truthy _); [|by injection Hrun as <-].
    destruct (Shaper.url_of _) as [url|]; [cbn in Hrun|done].
    destruct (Sanitizer.clear_query_params _ _ url) as [c|]; [cbn in Hrun|done].
    injection Hrun as <-. by rewrite lookup_insert_ne.
Qed.

(** [Stories.list] gives one record for each story up to the first
    whose record cannot be made, in the order of the stories, each the
    record of its story; every record has the page id and the business
    account id of the account, whatever the story's own data say for
    these two fields.  The stream ends without an exception exactly when
    every story gave its record, and otherwise with the exception that
    the first story without a record raised. *)
Theorem stories_carry_account (page_id account_id : value)
    (stories records : list (gmap string value)) (ending : Paginator.ending) :
  Sanitizer.Stories_list urlparse urlunparse page_id account_id stories
    = (records, ending) ->
  Forall2 (fun story record =>
             Sanitizer.story_record urlparse urlunparse page_id account_id story
             = Return record)
    (take (length records) stories) records
  /\ Forall (fun r : gmap string value =>
               r !! "page_id" = Some page_id
               /\ r !! "business_account_id" = Some account_id) records
  /\ match ending with
     | Paginator.StopIteration => length records = length stories
     | Paginator.Raised e =>
         exists story,
           stories !! length records = Some story
           /\ Sanitizer.story_record urlparse urlunparse page_id account_id story
              = Raise e
     end.
Proof.
  revert records ending.
  induction stories as [|record_data stories IH]; intros records ending;
    cbn [Sanitizer.Stories_list].
  - intros [= <- <-]. by repeat split.
  - destruct (Sanitizer.story_record urlparse urlunparse page_id account_id record_data)
      as [record|e] eqn:Hrecord.
    2:{ intros [= <- <-]. cbn. repeat split; [done..|]. by exists record_data. }
    destruct (Sanitizer.Stories_list urlparse urlunparse page_id account_id stories)
      as [records' ending'].
    intros [= <- <-].
    destruct (IH records' ending' eq_refl) as (Heach & Hall & Hend).
    split; [by constructor|]. split.
    + constructor; [|done]. unfold Sanitizer.story_record in Hrecord. split.
      * rewrite (clear_url_other _ _ "page_id" Hrecord) by done.
        by rewrite lookup_insert_ne, lookup_insert_eq.
      * rewrite (clear_url_other _ _ "business_account_id" Hrecord) by done.
        by rewrite lookup_insert_eq.
    + destruct ending' as [|e]; cbn; [by rewrite Hend|done].
Qed.
End StoriesRecords.

Lemma stories_carry_account_witness :
  let stories := [Samples.video_story "s1" "https://video.xx.fbcdn.net/v/a.mp4?_nc_rid=7&oh=5f";
                  <["page_id" := VStr "0"]> (Samples.item "s2");
                  Samples.video_story "s3" "https://video.xx.fbcdn.net/v/b.mp4"] in
  let run := Sanitizer.Stories_list Samples.urlparse Samples.urlunparse
               (VStr "1029") (VStr "17841400") stories in
  Forall2 (fun story record =>
             Sanitizer.story_record Samples.urlparse Samples.urlunparse
               (VStr "1029") (VStr "17841400") story = Return record)
    (take (length run.1) stories) run.1
  /\ Forall (fun r : gmap string value =>
               r !! "page_id" = Some (VStr "1029")
               /\ r !! "business_account_id" = Some (VStr "17841400")) run.1
  /\ match run.2 with
     | Paginator.StopIteration => length run.1 = length stories
     | Paginator.Raised e =>
         exists story,
           stories !! length run.1 = Some story
           /\ Sanitizer.story_record Samples.urlparse Samples.urlunparse
                (VStr "1029") (VStr "17841400") story = Raise e
     end.
Proof.
  intros stories run.
  apply (stories_carry_account Samples.urlparse Samples.urlunparse
           (VStr "1029") (VStr "17841400") stories).
  apply surjective_pairing.
Defined.

(** A video story whose media URL has no query string ends the stream
    of stories with [ValueError]: the sanitization of the URL raises, and
    the stories after it are not read. *)
Theorem stories_video_without_query (page_id account_id : value)
    (pre post records : list (gmap string value)) (record_data : gmap string value)
    (url : string) :
  record_data !! "media_type" = Some (VStr "VIDEO") ->
  record_data !! "media_url" = Some (VStr url) ->
  url <> EmptyString ->
  Shaper.query (Shaper.urlparse url) = EmptyString ->
  InstagramStreams.Stories_list page_id account_id pre
    = (records, Paginator.StopIteration) ->
  InstagramStreams.Stories_list page_id account_id (pre ++ record_data :: post)
  = (records, Paginator.Raised ValueError).
Proof.
  intros Htype Hurl Hnonempty Hquery.
  assert (Hraises : InstagramStreams.story_record page_id account_id record_data
                    = Raise ValueError).
  { unfold InstagramStreams.story_record, Shaper.clear_url, get.
    rewrite !lookup_insert_ne by done. rewrite Htype, Hurl. cbn.
    destruct url as [|c url]; [done|]. cbn.
    unfold Shaper.clear_query_params. by rewrite Hquery. }
  revert records. induction pre as [|story pre IH]; intros records;
    cbn [app InstagramStreams.Stories_list].
  - intros [= <-]. by rewrite Hraises.
  - destruct (InstagramStreams.story_record page_id account_id story) as [record|e];
      [|done].
    destruct (InstagramStreams.Stories_list page_id account_id pre)
      as [records' ending'].
    intros [= <- ->]. by rewrite (IH records' eq_refl).
Qed.

Lemma stories_video_without_query_witness :
  let pre := [Samples.video_story "s1" "https://video.xx.fbcdn.net/v/a.mp4?_nc_rid=7&oh=5f"] in
  InstagramStreams.Stories_list (VStr "1029") (VStr "17841400")
    (pre ++ Samples.video_story "s2" "https://video.xx.fbcdn.net/v/b.mp4"
         :: [Samples.item "s3"])
  = ((InstagramStreams.Stories_list (VStr "1029") (VStr "17841400") pre).1,
     Paginator.Raised ValueError).
Proof.
  intros pre.
  assert (Hend : (InstagramStreams.Stories_list (VStr "1029") (VStr "17841400") pre).2
                 = Paginator.StopIteration) by (vm_compute; reflexivity).
  apply (stories_video_without_query (VStr "1029") (VStr "17841400") pre
           [Samples.item "s3"] _ _ "https://video.xx.fbcdn.net/v/b.mp4");
    [reflexivity|reflexivity|discriminate|vm_compute; reflexivity|].
  rewrite <- Hend. apply surjective_pairing.
Defined.

(** ** [SourceSquare.check_connection] *)

(** The check of the connection asks the sandbox host exactly when the
    configured flag is true, and with the configured key.  It reports
    success only when the request passed; a refusal with status 401
    gives the text about the credentials and any other status the
    exception itself.  A request exception that carries no response is
    not reported: the check raises [AttributeError]. *)
Theorem check_connection_verdict
    (requests_get : string -> SquareStreams.check_headers -> SquareStreams.checked)
    (config : gmap string value) (api_key is_sandbox : value) :
  config !! "api_key" = Some api_key ->
  config !! "is_sandbox" = Some is_sandbox ->
  let url := if truthy is_sandbox
             then "https://connect.squareupsandbox.com/v2/catalog/info"
             else "https://connect.squareup.com/v2/catalog/info" in
  let headers := {| SquareStreams.Square_Version := "2021-06-16";
                    SquareStreams.Authorization := api_key;
                    SquareStreams.Content_Type := "application/json" |} in
  (forall r, SquareStreams.check_connection requests_get config = Return (true, r)
             <-> requests_get url headers = SquareStreams.Passed
                 /\ r = SquareStreams.NoReason)
  /\ (requests_get url headers = SquareStreams.RequestException (Some 401) ->
      SquareStreams.check_connection requests_get config
      = Return (false, SquareStreams.Text "Unauthorized. Check your credentials"))
  /\ (forall status_code,
        status_code <> 401 ->
        requests_get url headers = SquareStreams.RequestException (Some status_code) ->
        SquareStreams.check_connection requests_get config
        = Return (false, SquareStreams.CaughtException (Some status_code)))
  /\ (requests_get url headers = SquareStreams.RequestException None ->
      SquareStreams.check_connection requests_get config = Raise AttributeError).
Proof.
  intros Hkey Hflag url headers.
  unfold SquareStreams.check_connection, SquareStreams.api_version, getitem.
  rewrite Hkey, Hflag. cbn.
  assert (SquareStreams.check_url is_sandbox = url) as ->.
  { unfold SquareStreams.check_url, url. by destruct (truthy is_sandbox). }
  change (requests_get url _) with (requests_get url headers).
  split; [|split; [|split]].
  - intros r. destruct (requests_get url headers) as [|[status_code|]|e].
    + split; [intros Hsame; by injection Hsame as <-|by intros [_ ->]].
    + destruct (status_code =? 401); split; (done || by intros [? _]).
    + split; [done|by intros [? _]].
    + split; [done|by intros [? _]].
  - by intros ->.
  - intros status_code Hother ->.
    by destruct (Z.eqb_spec status_code 401).
  - by intros ->.
Qed.

Lemma check_connection_verdict_witness :
  SquareStreams.check_connection Samples.unreachable Samples.sandbox_config
  = Raise AttributeError.
Proof.
  apply (check_connection_verdict Samples.unreachable Samples.sandbox_config
           (VStr "EAAAEOuLQ") (VBool true)); reflexivity.
Defined.

(** ** [StoriesInsights.list] behind the retry policy: failures *)

Section StoriesInsightsDecorated.
Context {St : Type}.
Variable get_insights :
  gmap string value -> list string -> St -> outcome (list Shaper.insight) * St.


End StoriesInsightsDecorated.

